(** * local-ocpp: the OCPP gateway of [src/index.ts]

    A shallow embedding of the gateway's single source file: the registry
    [chargerConnections] (a JavaScript [Map]), the WebSocket ['message'] and
    ['close'] listeners, the outbound command senders and the two Express
    routes, followed by the properties of the specification that can be
    settled on them.

    JavaScript values are modelled as the runtime has them after
    [JSON.parse]: numbers are IEEE 754 binary64 values ([spec_float]),
    objects and arrays carry the address that [===] and [Map] compare,
    property reads on [null] and [undefined] throw, and a template literal
    throws when the string conversion of one of its substitutions does. *)

From Stdlib Require Import List String Ascii Bool ZArith Lia PeanoNat.
From Stdlib Require Import Floats.SpecFloat.
From Stdlib Require Import DecimalString DecimalPos DecimalZ.
Import ListNotations.
Local Open Scope string_scope.
Local Open Scope list_scope.
#[local] Set Warnings "-register-all".

(** ** Values *)

Module JS.

(** A JavaScript Number: a binary64 float. *)
Definition number : Type := spec_float.

(** The Number a source literal such as [2] or [300] denotes. *)
Definition lit (z : Z) : number := binary_normalize 53 1024 z 0 false.
Arguments lit z : simpl never.

(** The values the program handles: what [JSON.parse] returns, plus
    [undefined], which a read of an absent property yields.  [addr] is the
    identity of an object or array: two objects are the same object exactly
    when their addresses agree. *)
Inductive value : Type :=
| Undefined
| Null
| Bool (b : bool)
| Num (n : number)
| Str (s : string)
| Arr (addr : nat) (elems : list value)
| Obj (addr : nat) (props : list (string * value)).

(** [ToBoolean]: the falsy values are [undefined], [null], [false], [+0],
    [-0], [NaN] and the empty string. *)
Definition ToBoolean (v : value) : bool :=
  match v with
  | Undefined | Null => false
  | Bool b => b
  | Num (S754_zero _) | Num S754_nan => false
  | Num _ => true
  | Str s => negb (String.eqb s "")
  | Arr _ _ | Obj _ _ => true
  end.

(** [a || b] on values: [a] when it is truthy, otherwise [b]. *)
Definition logical_or (a b : value) : value :=
  if ToBoolean a then a else b.

(** [a === b] (IsStrictlyEqual): same type and same value; numbers by
    IEEE equality, objects by identity. *)
Definition strict_eq (a b : value) : bool :=
  match a, b with
  | Undefined, Undefined => true
  | Null, Null => true
  | Bool x, Bool y => Bool.eqb x y
  | Num x, Num y => SFeqb x y
  | Str x, Str y => String.eqb x y
  | Arr x _, Arr y _ => Nat.eqb x y
  | Obj x _, Obj y _ => Nat.eqb x y
  | _, _ => false
  end.

(** [SameValueZero], the key comparison of [Map]: as [===], except that
    [NaN] equals itself. *)
Definition sameValueZero (a b : value) : bool :=
  match a, b with
  | Num S754_nan, Num S754_nan => true
  | _, _ => strict_eq a b
  end.

(** The own property [name] of an object as [JSON.parse] built it: of
    duplicate names in the text the last one stands. *)
Fixpoint own (props : list (string * value)) (name : string) : option value :=
  match props with
  | [] => None
  | (k, v) :: rest =>
      match own rest name with
      | Some w => Some w
      | None => if String.eqb k name then Some v else None
      end
  end.

(** Whether [String(v)] (a template substitution) throws a [TypeError].
    No JSON value is callable, so an object with an own [toString]
    property has no usable [toString], and the inherited [valueOf] returns
    the object itself: the conversion throws.  An array is joined, which
    converts every element that is neither [undefined] nor [null]. *)
Fixpoint ToString_throws (v : value) : bool :=
  match v with
  | Obj _ props =>
      match own props "toString" with Some _ => true | None => false end
  | Arr _ elems => existsb ToString_throws elems
  | _ => false
  end.

(** [o.name] for an [o] that is neither [undefined] nor [null].  The
    program only reads names that no prototype defines ([messageTypeId],
    [action], [payload], [uniqueId], [chargePointModel], ...), so a read
    finds an own property of an object or nothing. *)
Definition prop (o : value) (name : string) : value :=
  match o with
  | Obj _ props =>
      match own props name with Some v => v | None => Undefined end
  | _ => Undefined
  end.

(** [null] and [undefined], on which a property read throws. *)
Definition nullish (v : value) : bool :=
  match v with Undefined | Null => true | _ => false end.

(** [`${n}`] for an integral Number such as [Date.now()]: its decimal
    digits. *)
Definition decimal (n : Z) : string := NilZero.string_of_int (Z.to_int n).
Arguments decimal n : simpl never.

End JS.

(** A WebSocket connection, by identity: [connection === ws] compares
    these. *)
Definition WebSocket : Type := nat.

(** ** [Map<string, WebSocket>]

    A [Map] keeps its entries in insertion order and compares keys with
    [SameValueZero].  The key type is only a compile-time annotation: at
    run time a key is whatever value the payload held. *)

Module Map.

Definition t : Type := list (JS.value * WebSocket).

(** [Map.prototype.set] stores [-0] as [+0]. *)
Definition normalize (k : JS.value) : JS.value :=
  match k with
  | JS.Num (S754_zero true) => JS.Num (S754_zero false)
  | _ => k
  end.

Fixpoint get (m : t) (k : JS.value) : option WebSocket :=
  match m with
  | [] => None
  | (k', v) :: rest => if JS.sameValueZero k' k then Some v else get rest k
  end.

(** An existing key keeps its place and takes the new value; a new key
    is appended. *)
Fixpoint set (m : t) (k : JS.value) (v : WebSocket) : t :=
  match m with
  | [] => [(normalize k, v)]
  | (k', v') :: rest =>
      if JS.sameValueZero k' k then (k', v) :: rest
      else (k', v') :: set rest k v
  end.

Fixpoint delete (m : t) (k : JS.value) : t :=
  match m with
  | [] => []
  | (k', v') :: rest =>
      if JS.sameValueZero k' k then rest else (k', v') :: delete rest k
  end.

(** [entries()], in insertion order. *)
Definition entries (m : t) : list (JS.value * WebSocket) := m.

(** The invariant of a [Map]: no two entries have the same key. *)
Fixpoint wf (m : t) : Prop :=
  match m with
  | [] => True
  | (k, _) :: rest => get rest k = None /\ wf rest
  end.

(** The number of entries filed under [k]. *)
Definition count (m : t) (k : JS.value) : nat :=
  List.length (List.filter (fun e => JS.sameValueZero (fst e) k) m).

(** The key of the first entry, in iteration order, whose value is
    [ws]. *)
Fixpoint owner (m : t) (ws : WebSocket) : option JS.value :=
  match m with
  | [] => None
  | (k, v) :: rest => if Nat.eqb v ws then Some k else owner rest ws
  end.

End Map.

(** ** Effects

    A handler reads and updates the registry, writes to the console, sends
    frames, answers HTTP requests, and may throw.  [M] threads the registry
    and collects the effects in order; what ran before a [throw] stays
    done. *)

(** [UnhandledError] stands for the [Error] a WebSocket emits as
    ['error'] when no listener takes it. *)
Inductive error : Type := SyntaxError | TypeError | UnhandledError.

(** A template literal, kept as its parts: the literal chunks and the
    values substituted between them. *)
Inductive piece : Type :=
| Lit (s : string)
| Sub (v : JS.value).

Definition text : Type := list piece.

Inductive effect : Type :=
| Send (ws : WebSocket) (data : JS.value)
    (** [ws.send(JSON.stringify(data))] *)
| Log (t : text)                      (** [console.log(t)] *)
| LogError (t : text)                 (** [console.error(t)] *)
| Respond (status : Z) (body : text)  (** [res.status(status).send(body)] *)
| Fail500 (e : error).
    (** Express answers a request whose handler threw with status 500. *)

Inductive completion (A : Type) : Type :=
| Normal (a : A)
| Throw (e : error).
Arguments Normal {A} a.
Arguments Throw {A} e.

Record outcome (A : Type) : Type := Outcome {
  result : completion A;
  store : Map.t;             (** [chargerConnections] afterwards *)
  effects : list effect
}.
Arguments Outcome {A} result store effects.
Arguments result {A} o.
Arguments store {A} o.
Arguments effects {A} o.

Definition M (A : Type) : Type := Map.t -> outcome A.

Definition ret {A : Type} (a : A) : M A := fun st => Outcome (Normal a) st [].

Definition throw {A : Type} (e : error) : M A :=
  fun st => Outcome (Throw e) st [].

Definition bind {A B : Type} (m : M A) (k : A -> M B) : M B :=
  fun st =>
    match m st with
    | Outcome (Normal a) st1 effs1 =>
        match k a st1 with
        | Outcome r st2 effs2 => Outcome r st2 (effs1 ++ effs2)
        end
    | Outcome (Throw e) st1 effs1 => Outcome (Throw e) st1 effs1
    end.

Declare Scope js_scope.
Delimit Scope js_scope with js.
Notation "x <- c ;; k" := (bind c (fun x => k))
  (at level 100, c at next level, right associativity) : js_scope.
Notation "c ;; k" := (bind c (fun _ => k))
  (at level 100, right associativity) : js_scope.
Local Open Scope js_scope.

Definition emit (e : effect) : M unit := fun st => Outcome (Normal tt) st [e].

Definition console_log (t : text) : M unit := emit (Log t).
Definition console_error (t : text) : M unit := emit (LogError t).
Definition ws_send (ws : WebSocket) (data : JS.value) : M unit :=
  emit (Send ws data).
Definition res_send (status : Z) (body : text) : M unit :=
  emit (Respond status body).

(** Evaluating a template literal converts each substitution to a string,
    which throws for some objects. *)
Definition piece_throws (p : piece) : bool :=
  match p with Lit _ => false | Sub v => JS.ToString_throws v end.

Definition template (t : text) : M text :=
  if existsb piece_throws t then throw TypeError else ret t.

(** [o.name]: throws on [null] and [undefined]. *)
Definition get (o : JS.value) (name : string) : M JS.value :=
  if JS.nullish o then throw TypeError else ret (JS.prop o name).

(** The registry operations on the module-level [chargerConnections]. *)
Definition chargerConnections_get (k : JS.value) : M (option WebSocket) :=
  fun st => Outcome (Normal (Map.get st k)) st [].
Definition chargerConnections_set (k : JS.value) (ws : WebSocket) : M unit :=
  fun st => Outcome (Normal tt) (Map.set st k ws) [].
Definition chargerConnections_delete (k : JS.value) : M unit :=
  fun st => Outcome (Normal tt) (Map.delete st k) [].
Definition chargerConnections_entries : M (list (JS.value * WebSocket)) :=
  fun st => Outcome (Normal (Map.entries st)) st [].

(** ** The environment of a handler *)

(** The clock as a handler reads it: [Date.now()] and
    [new Date().toISOString()]. *)
Record clock : Type := Clock { now : Z; iso : string }.

(** An inbound frame: its text, and the value [JSON.parse] returns for it,
    [None] when [JSON.parse] throws [SyntaxError]. *)
Record frame : Type := Frame { raw : string; json : option JS.value }.

Definition JSON_parse (message : frame) : M JS.value :=
  match json message with
  | Some v => ret v
  | None => throw SyntaxError
  end.

(** ** The program *)

Definition CALL_MESSAGE : JS.value := JS.Num (JS.lit 2).
Definition CALL_RESULT_MESSAGE : JS.value := JS.Num (JS.lit 3).

(** The array and object literals of the source; their addresses play no
    role, the values are only serialised. *)
Definition array (elems : list JS.value) : JS.value := JS.Arr 0 elems.
Definition object (props : list (string * JS.value)) : JS.value :=
  JS.Obj 0 props.

Definition sendBootNotificationResponse
    (ws : WebSocket) (uniqueId : JS.value) (c : clock) : M unit :=
  let response :=
    array [ CALL_RESULT_MESSAGE;
            uniqueId;
            object [ ("currentTime", JS.Str (iso c));
                     ("interval", JS.Num (JS.lit 300));
                     ("status", JS.Str "Accepted") ] ] in
  ws_send ws response.

Definition sendMessageToCharger
    (chargePointId : JS.value) (message : JS.value) : M unit :=
  ws <- chargerConnections_get chargePointId ;;
  match ws with
  | Some ws =>
      ws_send ws message ;;
      t <- template [Lit "Message sent to charger "; Sub chargePointId] ;;
      console_log t
  | None =>
      t <- template [Lit "Charger with ID "; Sub chargePointId;
                     Lit " not connected"] ;;
      console_error t
  end.

Definition sendRemoteStartTransaction
    (chargePointId connectorId idTag : JS.value) (c : clock) : M unit :=
  let message :=
    array [ CALL_MESSAGE;
            JS.Str (JS.decimal (now c));
            JS.Str "RemoteStartTransaction";
            object [ ("connectorId", connectorId); ("idTag", idTag) ] ] in
  sendMessageToCharger chargePointId message.

Definition sendRemoteStopTransaction
    (chargePointId transactionId : JS.value) (c : clock) : M unit :=
  let message :=
    array [ CALL_MESSAGE;
            JS.Str (JS.decimal (now c));
            JS.Str "RemoteStopTransaction";
            object [ ("transactionId", transactionId) ] ] in
  sendMessageToCharger chargePointId message.

(** Line 94:
    [payload.chargePointSerialNumber || payload.chargePointModel]. *)
Definition chargePointId_of (ocppMessage : JS.value) : M JS.value :=
  payload <- get ocppMessage "payload" ;;
  serial <- get payload "chargePointSerialNumber" ;;
  if JS.ToBoolean serial then ret serial
  else
    payload <- get ocppMessage "payload" ;;
    get payload "chargePointModel".

(** The condition of line 92, [&&] evaluating its right operand only when
    the left one holds. *)
Definition is_BootNotification (ocppMessage : JS.value) : M bool :=
  messageTypeId <- get ocppMessage "messageTypeId" ;;
  if JS.strict_eq messageTypeId CALL_MESSAGE then
    action <- get ocppMessage "action" ;;
    ret (JS.strict_eq action (JS.Str "BootNotification"))
  else ret false.

(** [ws.on('message', ...)]. *)
Definition on_message (ws : WebSocket) (message : frame) (c : clock)
  : M unit :=
  t <- template [Lit "Received: "; Sub (JS.Str (raw message))] ;;
  console_log t ;;
  ocppMessage <- JSON_parse message ;;
  boot <- is_BootNotification ocppMessage ;;
  if boot then
    payload <- get ocppMessage "payload" ;;
    chargePointModel <- get payload "chargePointModel" ;;
    chargePointVendor <- get payload "chargePointVendor" ;;
    chargePointId <- chargePointId_of ocppMessage ;;
    chargerConnections_set chargePointId ws ;;
    t <- template [Lit "Charger "; Sub chargePointId;
                   Lit " connected: Model "; Sub chargePointModel;
                   Lit ", Vendor "; Sub chargePointVendor] ;;
    console_log t ;;
    uniqueId <- get ocppMessage "uniqueId" ;;
    sendBootNotificationResponse ws uniqueId c
  else
    messageTypeId <- get ocppMessage "messageTypeId" ;;
    if JS.strict_eq messageTypeId CALL_RESULT_MESSAGE then
      action <- get ocppMessage "action" ;;
      t <- template [Lit "Received response for: "; Sub action] ;;
      console_log t
    else
      console_log [Lit "Unsupported message type or action"].

(** The [for ... of] loop of the ['close'] listener: the first entry whose
    value is [ws] is deleted by its key, and the loop breaks. *)
Fixpoint close_loop (ws : WebSocket) (entries : list (JS.value * WebSocket))
  : M unit :=
  match entries with
  | [] => ret tt
  | (chargePointId, connection) :: rest =>
      if Nat.eqb connection ws then
        chargerConnections_delete chargePointId ;;
        t <- template [Lit "Charger "; Sub chargePointId;
                       Lit " disconnected"] ;;
        console_log t
      else close_loop ws rest
  end.

(** [ws.on('close', ...)]. *)
Definition on_close (ws : WebSocket) : M unit :=
  entries <- chargerConnections_entries ;;
  close_loop ws entries.

(** [wss.on('connection', ...)]: registers the two listeners above. *)
Definition on_connection (ws : WebSocket) : M unit :=
  console_log [Lit "New charger connected"].

(** [app.post('/start', ...)], [body] being [req.body]. *)
Definition post_start (body : JS.value) (c : clock) : M unit :=
  chargePointId <- get body "chargePointId" ;;
  connectorId <- get body "connectorId" ;;
  idTag <- get body "idTag" ;;
  if negb (JS.ToBoolean chargePointId) || negb (JS.ToBoolean connectorId)
     || negb (JS.ToBoolean idTag)
  then
    res_send 400
      [Lit "Missing required parameters: chargePointId, connectorId, idTag"]
  else
    sendRemoteStartTransaction chargePointId connectorId idTag c ;;
    t <- template [Lit "RemoteStartTransaction sent to charger ";
                   Sub chargePointId] ;;
    res_send 200 t.

(** [app.post('/stop', ...)]. *)
Definition post_stop (body : JS.value) (c : clock) : M unit :=
  chargePointId <- get body "chargePointId" ;;
  transactionId <- get body "transactionId" ;;
  if negb (JS.ToBoolean chargePointId) || negb (JS.ToBoolean transactionId)
  then
    res_send 400
      [Lit "Missing required parameters: chargePointId, transactionId"]
  else
    sendRemoteStopTransaction chargePointId transactionId c ;;
    t <- template [Lit "RemoteStopTransaction sent to charger ";
                   Sub chargePointId] ;;
    res_send 200 t.

(** ** The process

    The events the two servers deliver, one at a time.  An exception that
    leaves a WebSocket listener is caught by nothing (the source has no
    [try] and no ['uncaughtException'] handler): the process ends.  One
    that leaves a route handler is caught by Express.

    A WebSocket also emits ['error'] (a frame that breaks the protocol, a
    failure of the socket).  The source registers no ['error'] listener on
    [ws], and an ['error'] event without a listener is thrown by the
    emitter: it ends the process like any uncaught exception. *)

Inductive event : Type :=
| Connection (ws : WebSocket)
| Message (ws : WebSocket) (message : frame) (c : clock)
| Close (ws : WebSocket)
| PostStart (body : JS.value) (c : clock)
| PostStop (body : JS.value) (c : clock)
| SocketError (ws : WebSocket).

Definition express (handler : M unit) : M unit :=
  fun st =>
    let o := handler st in
    match result o with
    | Normal _ => o
    | Throw e => Outcome (Normal tt) (store o) (effects o ++ [Fail500 e])
    end.

Definition handle (e : event) : M unit :=
  match e with
  | Connection ws => on_connection ws
  | Message ws message c => on_message ws message c
  | Close ws => on_close ws
  | PostStart body c => express (post_start body c)
  | PostStop body c => express (post_stop body c)
  | SocketError ws => throw UnhandledError
  end.

(** The process from start-up ([chargerConnections] empty) through a
    sequence of events; a [Throw] result is the process ending on an
    uncaught exception, the events after it never handled. *)
Fixpoint run (events : list event) : M unit :=
  match events with
  | [] => ret tt
  | e :: rest => handle e ;; run rest
  end.

Definition start : Map.t := [].

(** ** Notions the properties are stated with *)

(** The class of a key under [SameValueZero]: both zeros are one key, and
    an object is its address. *)
Definition key (v : JS.value) : JS.value :=
  match v with
  | JS.Num (S754_zero _) => JS.Num (S754_zero false)
  | JS.Arr a _ => JS.Arr a []
  | JS.Obj a _ => JS.Obj a []
  | _ => v
  end.

(** The listener answered on [ws]: some frame was sent on it. *)
Definition replied (o : outcome unit) (ws : WebSocket) : Prop :=
  exists data, In (Send ws data) (effects o).

(** Handling [message] on [ws] in registry [st] is a BootNotification
    handshake that establishes identity [I]: the listener sent its answer
    on [ws], and line 94 evaluated to [I]. *)
Definition handshake
    (ws : WebSocket) (message : frame) (c : clock) (st : Map.t)
    (I : JS.value) : Prop :=
  replied (on_message ws message c st) ws /\
  exists m, json message = Some m /\
            result (chargePointId_of m st) = Normal I.

(** The BootNotification answer for [uniqueId] at clock [c]. *)
Definition CallResult (uniqueId : JS.value) (c : clock) : JS.value :=
  array [ CALL_RESULT_MESSAGE;
          uniqueId;
          object [ ("currentTime", JS.Str (iso c));
                   ("interval", JS.Num (JS.lit 300));
                   ("status", JS.Str "Accepted") ] ].

(** The RemoteStartTransaction Call with unique id [uniqueId]. *)
Definition RemoteStart (uniqueId : string) (connectorId idTag : JS.value)
  : JS.value :=
  array [ CALL_MESSAGE;
          JS.Str uniqueId;
          JS.Str "RemoteStartTransaction";
          object [ ("connectorId", connectorId); ("idTag", idTag) ] ].

(** The unique id of an outbound Call frame: its second element. *)
Definition uniqueId_of (data : JS.value) : option JS.value :=
  match data with
  | JS.Arr _ (_ :: u :: _) => Some u
  | _ => None
  end.

(** The frames sent, in order, with the connection each went to. *)
Fixpoint sent (effs : list effect) : list (WebSocket * JS.value) :=
  match effs with
  | [] => []
  | Send ws data :: rest => (ws, data) :: sent rest
  | _ :: rest => sent rest
  end.

(** The HTTP answers given, in order. *)
Fixpoint statuses (effs : list effect) : list Z :=
  match effs with
  | [] => []
  | Respond status _ :: rest => status :: statuses rest
  | Fail500 _ :: rest => 500%Z :: statuses rest
  | _ :: rest => statuses rest
  end.

(** The first line every frame leaves on the console. *)
Definition received (message : frame) : effect :=
  Log [Lit "Received: "; Sub (JS.Str (raw message))].

(** The console line of the BootNotification branch. *)
Definition connected (chargePointId payload : JS.value) : effect :=
  Log [Lit "Charger "; Sub chargePointId;
       Lit " connected: Model "; Sub (JS.prop payload "chargePointModel");
       Lit ", Vendor "; Sub (JS.prop payload "chargePointVendor")].

(** The condition of line 92 on a message that is not [null]. *)
Definition boot_shape (m : JS.value) : bool :=
  JS.strict_eq (JS.prop m "messageTypeId") CALL_MESSAGE
  && JS.strict_eq (JS.prop m "action") (JS.Str "BootNotification").

(** Line 94 on a payload that is not [null]. *)
Definition identity (payload : JS.value) : JS.value :=
  JS.logical_or (JS.prop payload "chargePointSerialNumber")
                (JS.prop payload "chargePointModel").

(** The template of line 98 throws. *)
Definition unprintable (payload : JS.value) : bool :=
  JS.ToString_throws (identity payload)
  || JS.ToString_throws (JS.prop payload "chargePointModel")
  || JS.ToString_throws (JS.prop payload "chargePointVendor").

(** A parsed frame that is an array, a string, a number or a boolean:
    anything but an object or [null]. *)
Definition array_or_scalar (v : JS.value) : bool :=
  match v with
  | JS.Arr _ _ | JS.Str _ | JS.Num _ | JS.Bool _ => true
  | _ => false
  end.

(** The console line of the last branch of the listener. *)
Definition unsupported : effect :=
  Log [Lit "Unsupported message type or action"].

(** The unique ids of the frames sent, in order. *)
Definition uniqueIds (effs : list effect) : list (option JS.value) :=
  List.map (fun p => uniqueId_of (snd p)) (sent effs).

(** The RemoteStopTransaction Call with unique id [uniqueId]. *)
Definition RemoteStop (uniqueId : string) (transactionId : JS.value)
  : JS.value :=
  array [ CALL_MESSAGE;
          JS.Str uniqueId;
          JS.Str "RemoteStopTransaction";
          object [ ("transactionId", transactionId) ] ].

(** The two answers of the routes when a field is falsy. *)
Definition missing_start : effect :=
  Respond 400
    [Lit "Missing required parameters: chargePointId, connectorId, idTag"].

Definition missing_stop : effect :=
  Respond 400
    [Lit "Missing required parameters: chargePointId, transactionId"].

(** The exception, if any, that handling a frame ends with, read off the
    frame alone: text that is not JSON, the value [null], a
    BootNotification whose payload is missing or cannot be printed, a
    result whose [action] cannot be printed. *)
Definition listener_throws (message : frame) : option error :=
  match json message with
  | None => Some SyntaxError
  | Some m =>
      if JS.nullish m then Some TypeError
      else if boot_shape m then
        if JS.nullish (JS.prop m "payload")
           || unprintable (JS.prop m "payload")
        then Some TypeError else None
      else if JS.strict_eq (JS.prop m "messageTypeId") CALL_RESULT_MESSAGE
              && JS.ToString_throws (JS.prop m "action")
      then Some TypeError else None
  end.

(** Every key of the registry can be converted to a string. *)
Definition printable_keys (st : Map.t) : Prop :=
  Forall (fun e => JS.ToString_throws (fst e) = false) st.

(** An event that does not end the process: any event but a frame whose
    handling throws and an ['error'] of a socket. *)
Definition harmless (e : event) : Prop :=
  match e with
  | Message _ message _ => listener_throws message = None
  | SocketError _ => False
  | _ => True
  end.

(** The HTTP requests among the events. *)
Definition is_request (e : event) : bool :=
  match e with
  | PostStart _ _ | PostStop _ _ => true
  | _ => false
  end.

(** ** The scenario of the specification

    A charger connects and sends a BootNotification for serial number SN42;
    the operator then posts a start command for SN42. *)

(** [s] between double quotes. *)
Definition quoted (s : string) : string :=
  String "034" EmptyString ++ s ++ String "034" EmptyString.

(** One reading of the clock: 1700000000000 ms after the epoch. *)
Definition tick : clock := Clock 1700000000000 "2023-11-14T22:13:20.000Z".

(** The payload of the scenario, as text and as [JSON.parse] returns
    it. *)
Definition payload_text : string :=
  "{" ++ quoted "chargePointModel" ++ ":" ++ quoted "X1" ++ ","
      ++ quoted "chargePointVendor" ++ ":" ++ quoted "Acme" ++ ","
      ++ quoted "chargePointSerialNumber" ++ ":" ++ quoted "SN42" ++ "}".

Definition boot_payload : JS.value :=
  JS.Obj 2 [ ("chargePointModel", JS.Str "X1");
             ("chargePointVendor", JS.Str "Acme");
             ("chargePointSerialNumber", JS.Str "SN42") ].

(** The frame as OCPP writes it:
    [[2,"1","BootNotification",{...}]]. *)
Definition wire_boot : frame :=
  Frame ("[2," ++ quoted "1" ++ "," ++ quoted "BootNotification" ++ ","
           ++ payload_text ++ "]")
        (Some (JS.Arr 1 [ JS.Num (JS.lit 2); JS.Str "1";
                          JS.Str "BootNotification"; boot_payload ])).

(** The same message as an object with the fields of [OCPPMessage]. *)
Definition object_boot : frame :=
  Frame ("{" ++ quoted "messageTypeId" ++ ":2,"
           ++ quoted "uniqueId" ++ ":" ++ quoted "1" ++ ","
           ++ quoted "action" ++ ":" ++ quoted "BootNotification" ++ ","
           ++ quoted "payload" ++ ":" ++ payload_text ++ "}")
        (Some (JS.Obj 1 [ ("messageTypeId", JS.Num (JS.lit 2));
                          ("uniqueId", JS.Str "1");
                          ("action", JS.Str "BootNotification");
                          ("payload", boot_payload) ])).

(** A BootNotification, as an object, whose payload gives the model only. *)
Definition model_boot (model : string) : frame :=
  Frame ("{" ++ quoted "messageTypeId" ++ ":2,"
           ++ quoted "uniqueId" ++ ":" ++ quoted "1" ++ ","
           ++ quoted "action" ++ ":" ++ quoted "BootNotification" ++ ","
           ++ quoted "payload" ++ ":{"
           ++ quoted "chargePointModel" ++ ":" ++ quoted model ++ "}}")
        (Some (JS.Obj 1 [ ("messageTypeId", JS.Num (JS.lit 2));
                          ("uniqueId", JS.Str "1");
                          ("action", JS.Str "BootNotification");
                          ("payload",
                           JS.Obj 2 [("chargePointModel", JS.Str model)]) ])).

(** A payload whose serial number is present and empty. *)
Definition blank_serial_payload : JS.value :=
  JS.Obj 2 [ ("chargePointModel", JS.Str "X1");
             ("chargePointVendor", JS.Str "Acme");
             ("chargePointSerialNumber", JS.Str "") ].

(** The body of [POST /start] for connector [connectorId] of SN42. *)
Definition start_body (connectorId : Z) : JS.value :=
  JS.Obj 1 [ ("chargePointId", JS.Str "SN42");
             ("connectorId", JS.Num (JS.lit connectorId));
             ("idTag", JS.Str "TAG1") ].

(** The CallResult a charger would answer the start command of [tick]
    with: [[3,"1700000000000",{"status":"Accepted"}]]. *)
Definition wire_result : frame :=
  Frame ("[3," ++ quoted "1700000000000" ++ ",{" ++ quoted "status" ++ ":"
           ++ quoted "Accepted" ++ "}]")
        (Some (JS.Arr 1 [ JS.Num (JS.lit 3); JS.Str "1700000000000";
                          JS.Obj 2 [("status", JS.Str "Accepted")] ])).

(** ** [SameValueZero] and [Map] *)

Ltac settle :=
  split; intro; try discriminate; try contradiction; try exact I;
  try congruence.

Lemma SFeqb_true_iff (x y : JS.number) :
  SFeqb x y = true <->
  match x, y with
  | S754_zero _, S754_zero _ => True
  | S754_nan, _ | _, S754_nan => False
  | _, _ => x = y
  end.
Proof.
  unfold SFeqb.
  destruct x as [sx|sx| |sx mx ex], y as [sy|sy| |sy my ey]; simpl;
    try solve [settle]; try solve [destruct sx; settle];
    try solve [destruct sy; settle]; try solve [destruct sx, sy; settle].
  destruct sx, sy; try solve [settle];
    (destruct (Z.compare_spec ex ey) as [He|He|He];
     [ subst ey; fold (Pos.compare mx my);
       destruct (Pos.compare_spec mx my) as [Hm|Hm|Hm]; simpl
     | | ]);
    try solve [subst; settle];
    try solve [split; [discriminate | intros H; injection H; lia]].
Qed.

Lemma sameValueZero_key (a b : JS.value) :
  JS.sameValueZero a b = true <-> key a = key b.
Proof.
  destruct a as [| |x|x|x|x l|x l], b as [| |y|y|y|y l'|y l'];
    repeat match goal with
           | n : JS.number |- _ => destruct n
           | b : bool |- _ => destruct b
           end;
    unfold JS.sameValueZero, JS.strict_eq, key;
    try rewrite SFeqb_true_iff; try rewrite String.eqb_eq;
    try rewrite Nat.eqb_eq; simpl; settle.
Qed.

Lemma sameValueZero_refl (k : JS.value) : JS.sameValueZero k k = true.
Proof. apply sameValueZero_key. reflexivity. Qed.

Lemma sameValueZero_congr (a b c : JS.value) :
  JS.sameValueZero a b = true ->
  JS.sameValueZero a c = JS.sameValueZero b c.
Proof.
  intros H. apply sameValueZero_key in H.
  apply Bool.eq_true_iff_eq. rewrite !sameValueZero_key, H. reflexivity.
Qed.

Lemma sameValueZero_sym (a b : JS.value) :
  JS.sameValueZero a b = JS.sameValueZero b a.
Proof.
  apply Bool.eq_true_iff_eq. rewrite !sameValueZero_key.
  split; intros H; symmetry; exact H.
Qed.

Lemma sameValueZero_normalize (k k' : JS.value) :
  JS.sameValueZero (Map.normalize k) k' = JS.sameValueZero k k'.
Proof.
  apply sameValueZero_congr, sameValueZero_key.
  destruct k as [| |b|n|s|a l|a l]; try reflexivity.
  destruct n as [[|]|[|]| |s m e]; reflexivity.
Qed.

Lemma get_congr (m : Map.t) (k k' : JS.value) :
  JS.sameValueZero k k' = true -> Map.get m k = Map.get m k'.
Proof.
  intros H. induction m as [|[k0 v0] m IH]; simpl; [reflexivity|].
  rewrite (sameValueZero_sym k0 k), (sameValueZero_sym k0 k').
  rewrite (sameValueZero_congr _ _ k0 H), IH. reflexivity.
Qed.

Lemma get_set_same (m : Map.t) (k : JS.value) (v : WebSocket) :
  Map.get (Map.set m k v) k = Some v.
Proof.
  induction m as [|[k0 v0] m IH]; simpl.
  - rewrite sameValueZero_normalize, sameValueZero_refl. reflexivity.
  - destruct (JS.sameValueZero k0 k) eqn:E; simpl; rewrite E; auto.
Qed.

Lemma get_set_other (m : Map.t) (k k' : JS.value) (v : WebSocket) :
  JS.sameValueZero k k' = false ->
  Map.get (Map.set m k v) k' = Map.get m k'.
Proof.
  intros H. induction m as [|[k0 v0] m IH]; simpl.
  - rewrite sameValueZero_normalize, H. reflexivity.
  - destruct (JS.sameValueZero k0 k) eqn:E; simpl.
    + rewrite (sameValueZero_congr _ _ k' E), H. reflexivity.
    + rewrite IH. reflexivity.
Qed.

Lemma wf_set (m : Map.t) (k : JS.value) (v : WebSocket) :
  Map.wf m -> Map.wf (Map.set m k v).
Proof.
  induction m as [|[k0 v0] m IH]; simpl.
  - auto.
  - intros [Hg Hw]. destruct (JS.sameValueZero k0 k) eqn:E; simpl.
    + auto.
    + split; [|auto]. rewrite get_set_other; [exact Hg|].
      rewrite sameValueZero_sym. exact E.
Qed.

Lemma get_delete_other (m : Map.t) (k k' : JS.value) :
  JS.sameValueZero k k' = false ->
  Map.get (Map.delete m k) k' = Map.get m k'.
Proof.
  intros H. induction m as [|[k0 v0] m IH]; simpl; [reflexivity|].
  destruct (JS.sameValueZero k0 k) eqn:E; simpl.
  - rewrite (sameValueZero_congr _ _ k' E), H. reflexivity.
  - rewrite IH. reflexivity.
Qed.

Lemma get_delete_none (m : Map.t) (k k' : JS.value) :
  Map.get m k' = None -> Map.get (Map.delete m k) k' = None.
Proof.
  induction m as [|[k0 v0] m IH]; simpl; [auto|].
  destruct (JS.sameValueZero k0 k') eqn:E'; [discriminate|].
  intros H. destruct (JS.sameValueZero k0 k); simpl; [exact H|].
  rewrite E'. auto.
Qed.

Lemma wf_delete (m : Map.t) (k : JS.value) :
  Map.wf m -> Map.wf (Map.delete m k).
Proof.
  induction m as [|[k0 v0] m IH]; simpl; [auto|].
  intros [Hg Hw]. destruct (JS.sameValueZero k0 k); simpl; [exact Hw|].
  split; [apply get_delete_none; exact Hg | auto].
Qed.

Lemma get_delete_same (m : Map.t) (k : JS.value) :
  Map.wf m -> Map.get (Map.delete m k) k = None.
Proof.
  induction m as [|[k0 v0] m IH]; simpl; [auto|].
  intros [Hg Hw]. destruct (JS.sameValueZero k0 k) eqn:E; simpl.
  - rewrite <- (get_congr m k0 k E). exact Hg.
  - rewrite E. auto.
Qed.

Lemma count_none (m : Map.t) (k : JS.value) :
  Map.get m k = None -> Map.count m k = 0.
Proof.
  unfold Map.count. induction m as [|[k0 v0] m IH]; simpl; [reflexivity|].
  destruct (JS.sameValueZero k0 k); [discriminate | auto].
Qed.

Lemma count_some (m : Map.t) (k : JS.value) (v : WebSocket) :
  Map.wf m -> Map.get m k = Some v -> Map.count m k = 1.
Proof.
  induction m as [|[k0 v0] m IH]; simpl; [discriminate|].
  intros [Hg Hw]. unfold Map.count. simpl.
  destruct (JS.sameValueZero k0 k) eqn:E; simpl.
  - intros _. rewrite (get_congr m k0 k E) in Hg.
    apply count_none in Hg. unfold Map.count in Hg. rewrite Hg. reflexivity.
  - intros H. apply IH; assumption.
Qed.

(** ** The ['close'] listener *)

Lemma close_loop_store (ws : WebSocket) (entries : list (JS.value * WebSocket))
    (st : Map.t) :
  store (close_loop ws entries st) =
  match Map.owner entries ws with
  | Some k => Map.delete st k
  | None => st
  end.
Proof.
  induction entries as [|[k v] entries IH]; simpl; [reflexivity|].
  destruct (Nat.eqb v ws); [|exact IH].
  unfold bind, chargerConnections_delete, template, console_log, emit; simpl.
  destruct (JS.ToString_throws k); reflexivity.
Qed.

Lemma on_close_store (ws : WebSocket) (st : Map.t) :
  store (on_close ws st) =
  match Map.owner st ws with
  | Some k => Map.delete st k
  | None => st
  end.
Proof.
  unfold on_close, bind, chargerConnections_entries; simpl.
  rewrite <- close_loop_store. unfold Map.entries.
  destruct (close_loop ws st st) as [[[]|e] st' effs]; reflexivity.
Qed.

Lemma owner_split (pre post : Map.t) (k : JS.value) (ws : WebSocket) :
  (forall e, In e pre -> snd e <> ws) ->
  Map.owner (pre ++ (k, ws) :: post) ws = Some k.
Proof.
  induction pre as [|[k0 v0] pre IH]; simpl; intros H.
  - rewrite Nat.eqb_refl. reflexivity.
  - destruct (Nat.eqb_spec v0 ws) as [E|E].
    + exfalso. apply (H (k0, v0)); auto.
    + apply IH. intros e He. apply H. auto.
Qed.

Lemma owner_none (m : Map.t) (ws : WebSocket) :
  (forall e, In e m -> snd e <> ws) <-> Map.owner m ws = None.
Proof.
  induction m as [|[k0 v0] m IH]; simpl.
  - split; [reflexivity | intros _ e []].
  - destruct (Nat.eqb_spec v0 ws) as [E|E].
    + split; [|discriminate]. intros H. exfalso. apply (H (k0, v0)); auto.
    + rewrite <- IH. split.
      * intros H e He. apply H. auto.
      * intros H e [<-|He]; [exact E | apply H, He].
Qed.

Lemma get_app_none (pre post : Map.t) (k : JS.value) :
  Map.get (pre ++ post) k = None ->
  Map.get pre k = None /\ Map.get post k = None.
Proof.
  induction pre as [|[k0 v0] pre IH]; simpl; [auto|].
  destruct (JS.sameValueZero k0 k); [discriminate | exact IH].
Qed.

Lemma delete_split (pre post : Map.t) (k : JS.value) (ws : WebSocket) :
  Map.wf (pre ++ (k, ws) :: post) ->
  Map.delete (pre ++ (k, ws) :: post) k = pre ++ post.
Proof.
  induction pre as [|[k0 v0] pre IH]; simpl.
  - intros _. rewrite sameValueZero_refl. reflexivity.
  - intros [Hg Hw]. apply get_app_none in Hg. destruct Hg as [_ Hg].
    simpl in Hg. rewrite sameValueZero_sym in Hg.
    destruct (JS.sameValueZero k0 k); [discriminate|].
    rewrite IH; auto.
Qed.

(** ** The ['message'] listener, branch by branch *)

Ltac js_unfold :=
  unfold handle, express, post_start, post_stop, on_message,
    is_BootNotification, chargePointId_of, sendBootNotificationResponse,
    sendRemoteStartTransaction, sendRemoteStopTransaction,
    sendMessageToCharger, JSON_parse, get, template, bind, console_log, console_error, ws_send,
    res_send, emit, ret, throw, chargerConnections_set,
    chargerConnections_get;
  simpl.

(** Run the handler as far as the equations at hand decide its tests. *)
Ltac js_run :=
  js_unfold;
  repeat match goal with
         | H : ?x = _ |- context [?x] => rewrite H; simpl
         end.

Section OnMessage.

Variables (ws : WebSocket) (message : frame) (c : clock) (st : Map.t).

Lemma on_message_SyntaxError :
  json message = None ->
  on_message ws message c st =
  Outcome (Throw SyntaxError) st [received message].
Proof. intros H. js_run. reflexivity. Qed.

Variable m : JS.value.
Hypothesis parsed : json message = Some m.

Lemma on_message_nullish :
  JS.nullish m = true ->
  on_message ws message c st =
  Outcome (Throw TypeError) st [received message].
Proof. intros H. js_run. reflexivity. Qed.

Hypothesis not_null : JS.nullish m = false.

Lemma on_message_other :
  boot_shape m = false ->
  on_message ws message c st =
  if JS.strict_eq (JS.prop m "messageTypeId") CALL_RESULT_MESSAGE then
    if JS.ToString_throws (JS.prop m "action") then
      Outcome (Throw TypeError) st [received message]
    else
      Outcome (Normal tt) st
        [ received message;
          Log [Lit "Received response for: "; Sub (JS.prop m "action")] ]
  else
    Outcome (Normal tt) st
      [ received message; Log [Lit "Unsupported message type or action"] ].
Proof.
  unfold boot_shape. intros H.
  destruct (JS.strict_eq (JS.prop m "messageTypeId") CALL_MESSAGE) eqn:E1;
    simpl in H;
    destruct (JS.strict_eq (JS.prop m "messageTypeId") CALL_RESULT_MESSAGE)
      eqn:E2;
    try destruct (JS.ToString_throws (JS.prop m "action")) eqn:E3;
    js_run; reflexivity.
Qed.

Hypothesis boot : boot_shape m = true.

Lemma on_message_boot_no_payload :
  JS.nullish (JS.prop m "payload") = true ->
  on_message ws message c st =
  Outcome (Throw TypeError) st [received message].
Proof.
  unfold boot_shape in boot. apply andb_prop in boot. destruct boot as [B1 B2].
  intros H. js_run. reflexivity.
Qed.

Lemma chargePointId_of_identity (st' : Map.t) :
  JS.nullish (JS.prop m "payload") = false ->
  chargePointId_of m st' =
  Outcome (Normal (identity (JS.prop m "payload"))) st' [].
Proof.
  intros H. unfold identity, JS.logical_or.
  destruct (JS.ToBoolean (JS.prop (JS.prop m "payload")
                            "chargePointSerialNumber")) eqn:E;
    js_run; reflexivity.
Qed.

Lemma on_message_boot :
  JS.nullish (JS.prop m "payload") = false ->
  let payload := JS.prop m "payload" in
  on_message ws message c st =
  if unprintable payload then
    Outcome (Throw TypeError) (Map.set st (identity payload) ws)
      [received message]
  else
    Outcome (Normal tt) (Map.set st (identity payload) ws)
      [ received message;
        connected (identity payload) payload;
        Send ws (CallResult (JS.prop m "uniqueId") c) ].
Proof.
  unfold boot_shape in boot. apply andb_prop in boot. destruct boot as [B1 B2].
  intros H payload. unfold unprintable, identity, JS.logical_or, connected.
  subst payload.
  destruct (JS.ToBoolean (JS.prop (JS.prop m "payload")
                            "chargePointSerialNumber")) eqn:E;
    [ destruct (JS.ToString_throws
                  (JS.prop (JS.prop m "payload") "chargePointSerialNumber"))
        eqn:T1 | ];
    destruct (JS.ToString_throws
                (JS.prop (JS.prop m "payload") "chargePointModel")) eqn:T2;
    destruct (JS.ToString_throws
                (JS.prop (JS.prop m "payload") "chargePointVendor")) eqn:T3;
    js_run; reflexivity.
Qed.

End OnMessage.

Ltac no_send H :=
  unfold replied in H; simpl in H;
  let d := fresh "d" in
  destruct H as [d H];
  repeat (destruct H as [H|H]; [discriminate H|]); contradiction.

(** A frame is answered only in the BootNotification branch. *)
Lemma replied_boot (ws : WebSocket) (message : frame) (c : clock)
    (st : Map.t) :
  replied (on_message ws message c st) ws ->
  exists m,
    json message = Some m /\ JS.nullish m = false /\ boot_shape m = true /\
    JS.nullish (JS.prop m "payload") = false /\
    unprintable (JS.prop m "payload") = false.
Proof.
  intros H.
  destruct (json message) as [m|] eqn:Ej;
    [|rewrite on_message_SyntaxError in H by assumption; no_send H].
  destruct (JS.nullish m) eqn:En;
    [rewrite (on_message_nullish _ _ _ _ m) in H by assumption; no_send H|].
  destruct (boot_shape m) eqn:Eb.
  - destruct (JS.nullish (JS.prop m "payload")) eqn:Ep;
      [rewrite (on_message_boot_no_payload _ _ _ _ m) in H by assumption;
       no_send H|].
    destruct (unprintable (JS.prop m "payload")) eqn:Eu.
    + rewrite (on_message_boot _ _ _ _ m) in H by assumption.
      rewrite Eu in H. no_send H.
    + exists m. auto.
  - rewrite (on_message_other _ _ _ _ m) in H by assumption.
    destruct (JS.strict_eq _ CALL_RESULT_MESSAGE);
      [destruct (JS.ToString_throws _)|]; no_send H.
Qed.

Lemma handshake_inv (ws : WebSocket) (message : frame) (c : clock)
    (st : Map.t) (I : JS.value) :
  handshake ws message c st I ->
  exists m,
    json message = Some m /\
    I = identity (JS.prop m "payload") /\
    on_message ws message c st =
    Outcome (Normal tt) (Map.set st I ws)
      [ received message;
        connected I (JS.prop m "payload");
        Send ws (CallResult (JS.prop m "uniqueId") c) ].
Proof.
  intros [Hr [m' [Hj Hi]]].
  destruct (replied_boot _ _ _ _ Hr) as [m [Ej [En [Eb [Ep Eu]]]]].
  assert (m' = m) by congruence. subst m'.
  rewrite chargePointId_of_identity in Hi by assumption.
  simpl in Hi. injection Hi as <-.
  exists m. repeat split; [assumption|].
  rewrite (on_message_boot _ _ _ _ m) by assumption. simpl.
  rewrite Eu. reflexivity.
Qed.

(** ** The registry stays a [Map] *)

Lemma on_message_wf (ws : WebSocket) (message : frame) (c : clock)
    (st : Map.t) :
  Map.wf st -> Map.wf (store (on_message ws message c st)).
Proof.
  intros Hw.
  destruct (json message) as [m|] eqn:Ej;
    [|rewrite on_message_SyntaxError by assumption; exact Hw].
  destruct (JS.nullish m) eqn:En;
    [rewrite (on_message_nullish _ _ _ _ m) by assumption; exact Hw|].
  destruct (boot_shape m) eqn:Eb.
  - destruct (JS.nullish (JS.prop m "payload")) eqn:Ep;
      [rewrite (on_message_boot_no_payload _ _ _ _ m) by assumption;
       exact Hw|].
    rewrite (on_message_boot _ _ _ _ m) by assumption. simpl.
    destruct (unprintable _); simpl; apply wf_set; exact Hw.
  - rewrite (on_message_other _ _ _ _ m) by assumption.
    destruct (JS.strict_eq _ CALL_RESULT_MESSAGE);
      [destruct (JS.ToString_throws _)|]; exact Hw.
Qed.

Lemma on_close_wf (ws : WebSocket) (st : Map.t) :
  Map.wf st -> Map.wf (store (on_close ws st)).
Proof.
  intros Hw. rewrite on_close_store.
  destruct (Map.owner st ws); [apply wf_delete|]; exact Hw.
Qed.

Lemma sendMessageToCharger_store (chargePointId data : JS.value)
    (st : Map.t) :
  store (sendMessageToCharger chargePointId data st) = st.
Proof.
  js_unfold. destruct (Map.get st chargePointId); simpl;
    destruct (JS.ToString_throws chargePointId); reflexivity.
Qed.

Lemma post_start_store (body : JS.value) (c : clock) (st : Map.t) :
  store (post_start body c st) = st.
Proof.
  unfold post_start, bind, get.
  destruct (JS.nullish body); [reflexivity|]. simpl.
  destruct (_ || _); [reflexivity|].
  unfold sendRemoteStartTransaction.
  pose proof (sendMessageToCharger_store (JS.prop body "chargePointId")
    (array [CALL_MESSAGE; JS.Str (JS.decimal (now c));
            JS.Str "RemoteStartTransaction";
            object [("connectorId", JS.prop body "connectorId");
                    ("idTag", JS.prop body "idTag")]]) st) as Hs.
  destruct (sendMessageToCharger _ _ st) as [r s e]. simpl in *. subst s.
  destruct r; [|reflexivity]. unfold template. simpl.
  destruct (JS.ToString_throws _); reflexivity.
Qed.

Lemma post_stop_store (body : JS.value) (c : clock) (st : Map.t) :
  store (post_stop body c st) = st.
Proof.
  unfold post_stop, bind, get.
  destruct (JS.nullish body); [reflexivity|]. simpl.
  destruct (_ || _); [reflexivity|].
  unfold sendRemoteStopTransaction.
  pose proof (sendMessageToCharger_store (JS.prop body "chargePointId")
    (array [CALL_MESSAGE; JS.Str (JS.decimal (now c));
            JS.Str "RemoteStopTransaction";
            object [("transactionId", JS.prop body "transactionId")]]) st)
    as Hs.
  destruct (sendMessageToCharger _ _ st) as [r s e]. simpl in *. subst s.
  destruct r; [|reflexivity]. unfold template. simpl.
  destruct (JS.ToString_throws _); reflexivity.
Qed.

Lemma express_store (handler : M unit) (st : Map.t) :
  store (express handler st) = store (handler st).
Proof. unfold express. destruct (result (handler st)); reflexivity. Qed.

Lemma handle_wf (e : event) (st : Map.t) :
  Map.wf st -> Map.wf (store (handle e st)).
Proof.
  intros Hw. destruct e as [ws|ws message c|ws|body c|body c|ws]; simpl.
  - exact Hw.
  - apply on_message_wf, Hw.
  - apply on_close_wf, Hw.
  - rewrite express_store, post_start_store. exact Hw.
  - rewrite express_store, post_stop_store. exact Hw.
  - exact Hw.
Qed.

(** Every registry the process can reach has distinct keys. *)
Lemma run_wf (events : list event) (st : Map.t) :
  Map.wf st -> Map.wf (store (run events st)).
Proof.
  revert st. induction events as [|e events IH]; intros st Hw; simpl.
  - exact Hw.
  - unfold bind. pose proof (handle_wf e st Hw) as He.
    destruct (handle e st) as [[[]|x] st1 effs1]; simpl in *; [|exact He].
    specialize (IH st1 He). destruct (run events st1). exact IH.
Qed.

(** ** Frames that are not objects *)

(** No property the listener reads exists on an array or a scalar, so
    such a frame matches neither branch. *)
Lemma on_message_array_or_scalar (ws : WebSocket) (message : frame)
    (c : clock) (st : Map.t) (v : JS.value) :
  json message = Some v ->
  array_or_scalar v = true ->
  on_message ws message c st =
  Outcome (Normal tt) st [received message; unsupported].
Proof.
  intros Hj Hv.
  rewrite (on_message_other ws message c st v Hj).
  - destruct v; try discriminate Hv; reflexivity.
  - destruct v; try discriminate Hv; reflexivity.
  - destruct v; try discriminate Hv; reflexivity.
Qed.

(** C1: the specification has every Call frame
    [[2, uniqueId, 'BootNotification', payload]] answered on the same
    connection by a CallResult with the same uniqueId.  The listener reads
    the properties [messageTypeId] and [action] of the parsed frame, which
    an array does not have: for every such frame it writes 'Unsupported
    message type or action', sends nothing and registers nothing. *)
Theorem C1_wire_BootNotification_unanswered
    (ws : WebSocket) (text : string) (addr : nat)
    (uniqueId payload : JS.value) (c : clock) (st : Map.t) :
  let message :=
    Frame text
      (Some (JS.Arr addr [ CALL_MESSAGE; uniqueId;
                           JS.Str "BootNotification"; payload ])) in
  on_message ws message c st =
  Outcome (Normal tt) st [received message; unsupported].
Proof.
  intros message.
  apply (on_message_array_or_scalar ws message c st _ eq_refl eq_refl).
Qed.

(** C8: the specification has every malformed inbound frame, text that is
    not JSON included, dropped and logged, the connection left open and no
    single message fatal to the process.  The listener calls [JSON.parse]
    outside any [try]: for text that is not JSON it throws [SyntaxError]
    right after the first console line, nothing catches the exception, the
    process ends, and the events that follow are never handled. *)
Theorem C8_invalid_JSON_ends_the_process
    (ws : WebSocket) (text : string) (c : clock) (st : Map.t)
    (later : list event) :
  run (Message ws (Frame text None) c :: later) st =
  Outcome (Throw SyntaxError) st [received (Frame text None)].
Proof.
  simpl. unfold bind.
  rewrite (on_message_SyntaxError ws (Frame text None) c st eq_refl).
  reflexivity.
Qed.

(** ** The identity of a charger *)

(** C6, the claim as stated fails: a payload whose
    [chargePointSerialNumber] is present but empty is filed under its
    [chargePointModel], not under the serial number. *)
Lemma C6_blank_serial_gives_model :
  JS.prop blank_serial_payload "chargePointSerialNumber" = JS.Str "" /\
  result (chargePointId_of (JS.Obj 1 [("payload", blank_serial_payload)])
            start)
    = Normal (JS.Str "X1").
Proof. vm_compute. split; reflexivity. Qed.

(** C6, amended: for every BootNotification payload that is an object, the
    derived identity is the [chargePointSerialNumber] when that field is
    present and truthy (a non-empty string, a number other than 0, [true],
    an object or an array), and otherwise, the field being absent or
    falsy (the empty string, 0, [false], [null]), it is the
    [chargePointModel], [undefined] when the payload has none. *)
Theorem C6_identity_is_truthy_serial_else_model
    (m : JS.value) (addr : nat) (fields : list (string * JS.value))
    (st : Map.t) :
  JS.nullish m = false ->
  JS.prop m "payload" = JS.Obj addr fields ->
  let model :=
    match JS.own fields "chargePointModel" with
    | Some v => v
    | None => JS.Undefined
    end in
  chargePointId_of m st =
  Outcome
    (Normal match JS.own fields "chargePointSerialNumber" with
            | Some serial => if JS.ToBoolean serial then serial else model
            | None => model
            end)
    st [].
Proof.
  intros Hm Hp model.
  rewrite chargePointId_of_identity by (rewrite ?Hp; auto).
  rewrite Hp. unfold identity, JS.logical_or, JS.prop. subst model.
  destruct (JS.own fields "chargePointSerialNumber"); reflexivity.
Qed.

(** The payload of the scenario is filed under its serial number. *)
Lemma C6_identity_is_truthy_serial_else_model_witness :
  chargePointId_of (JS.Obj 1 [("payload", boot_payload)]) start =
  Outcome (Normal (JS.Str "SN42")) start [].
Proof.
  apply (C6_identity_is_truthy_serial_else_model
           (JS.Obj 1 [("payload", boot_payload)]) 2
           [ ("chargePointModel", JS.Str "X1");
             ("chargePointVendor", JS.Str "Acme");
             ("chargePointSerialNumber", JS.Str "SN42") ] start);
    reflexivity.
Defined.

(** What [ToBoolean] makes of a string and of a number. *)
Lemma ToBoolean_Str (s : string) : JS.ToBoolean (JS.Str s) = true <-> s <> "".
Proof.
  simpl. destruct (String.eqb_spec s ""); simpl; split; congruence.
Qed.

Lemma ToBoolean_zero : JS.ToBoolean (JS.Num (JS.lit 0)) = false.
Proof. reflexivity. Qed.

(** ** The control plane *)

(** C9: the specification has [POST /start] answer 400 exactly when one
    of [chargePointId], [connectorId], [idTag] is missing, and 200 when all
    three are present, [connectorId] 0 included.  The route tests the
    fields with [!], under which the number 0 counts as missing: a body
    whose [connectorId] is 0 is answered 400, 'Missing required
    parameters', whatever the other two fields are, and no command is
    sent. *)
Theorem C9_connectorId_zero_answered_400
    (addr : nat) (chargePointId idTag : JS.value) (c : clock) (st : Map.t) :
  post_start
    (JS.Obj addr [ ("chargePointId", chargePointId);
                   ("connectorId", JS.Num (JS.lit 0));
                   ("idTag", idTag) ]) c st =
  Outcome (Normal tt) st
    [ Respond 400
        [Lit "Missing required parameters: chargePointId, connectorId, idTag"] ].
Proof.
  change (JS.lit 0) with (S754_zero false). js_unfold.
  destruct (JS.ToBoolean chargePointId); reflexivity.
Qed.

(** The unique id of a command is the reading of the clock. *)
Lemma sendMessageToCharger_sent (chargePointId data : JS.value)
    (st : Map.t) :
  sent (effects (sendMessageToCharger chargePointId data st)) =
  match Map.get st chargePointId with
  | Some ws => [(ws, data)]
  | None => []
  end.
Proof.
  js_unfold. destruct (Map.get st chargePointId); simpl;
    destruct (JS.ToString_throws chargePointId); reflexivity.
Qed.

(** C4: the specification has the unique ids of commands that are pending
    together distinct, two sends within one millisecond included, and the
    source calls the id 'Unique ID for this transaction'.  The id is the
    text of [Date.now()]: two [POST /start] requests handled in the same
    millisecond [c] put two Calls with the same uniqueId on the charger's
    connection. *)
Theorem C4_same_millisecond_same_uniqueId (c : clock) :
  uniqueIds
    (effects (run [PostStart (start_body 1) c; PostStart (start_body 2) c]
                [(JS.Str "SN42", 1)])) =
  [ Some (JS.Str (JS.decimal (now c))); Some (JS.Str (JS.decimal (now c))) ].
Proof. reflexivity. Qed.

(** Readings of the clock that differ give ids that differ. *)
Lemma decimal_inj (a b : Z) : JS.decimal a = JS.decimal b -> a = b.
Proof.
  unfold JS.decimal. intros H.
  assert (Hn : forall z, NilZero.int_of_string
                           (NilZero.string_of_int (Z.to_int z))
                         = Some (Z.to_int z)).
  { intros z. apply NilZero.isi; destruct z; simpl; try discriminate;
      intros E; injection E; apply DecimalPos.Unsigned.to_uint_nonnil. }
  apply DecimalZ.to_int_inj.
  pose proof (Hn a) as Ha. rewrite H, Hn in Ha. congruence.
Qed.

(** ** Outbound commands *)

Lemma sendMessageToCharger_connected
    (chargePointId data : JS.value) (ws : WebSocket) (st : Map.t) :
  Map.get st chargePointId = Some ws ->
  JS.ToString_throws chargePointId = false ->
  sendMessageToCharger chargePointId data st =
  Outcome (Normal tt) st
    [ Send ws data; Log [Lit "Message sent to charger "; Sub chargePointId] ].
Proof. intros Hg Ht. js_run. reflexivity. Qed.

Lemma sendMessageToCharger_not_connected
    (chargePointId data : JS.value) (st : Map.t) :
  Map.get st chargePointId = None ->
  JS.ToString_throws chargePointId = false ->
  sendMessageToCharger chargePointId data st =
  Outcome (Normal tt) st
    [ LogError [Lit "Charger with ID "; Sub chargePointId;
                Lit " not connected"] ].
Proof. intros Hg Ht. js_run. reflexivity. Qed.

Lemma CALL_RESULT_not_CALL (v : JS.value) :
  JS.strict_eq v CALL_RESULT_MESSAGE = true ->
  JS.strict_eq v CALL_MESSAGE = false.
Proof.
  unfold CALL_RESULT_MESSAGE, CALL_MESSAGE.
  destruct v as [| |b|n|s|a l|a l]; try discriminate.
  unfold JS.strict_eq. intros H. apply SFeqb_true_iff in H.
  change (JS.lit 3) with (S754_finite false 6755399441055744 (-51)) in H.
  destruct n; try contradiction; try discriminate H.
  rewrite H. reflexivity.
Qed.

(** C3, the claim as stated fails: with nothing registered,
    [POST /start] for SN42 is answered 200, not with an error of the
    404/409 class, and the sender hands no error to its caller. *)
Lemma C3_not_connected_answered_200 :
  Map.get start (JS.Str "SN42") = None /\
  result (sendRemoteStartTransaction (JS.Str "SN42") (JS.Num (JS.lit 1))
            (JS.Str "TAG1") tick start) = Normal tt /\
  statuses (effects (run [PostStart (start_body 1) tick] start)) = [200%Z].
Proof. vm_compute. repeat split. Qed.

(** C3, amended: for every identity with no registered connection (and
    whose conversion to a string does not throw), sending
    RemoteStartTransaction sends no frame, leaves the registry unchanged,
    writes 'Charger with ID <id> not connected' to [console.error] and
    returns normally, with nothing for the caller; [POST /start] with three
    truthy fields then still answers 200 'RemoteStartTransaction sent to
    charger <id>'.  The program keeps no pending correlations. *)
Theorem C3_not_connected_logged_and_answered_200
    (chargePointId connectorId idTag : JS.value) (c : clock) (st : Map.t) :
  Map.get st chargePointId = None ->
  JS.ToString_throws chargePointId = false ->
  let complaint :=
    LogError [Lit "Charger with ID "; Sub chargePointId;
              Lit " not connected"] in
  sendRemoteStartTransaction chargePointId connectorId idTag c st =
    Outcome (Normal tt) st [complaint] /\
  forall addr : nat,
    JS.ToBoolean chargePointId = true ->
    JS.ToBoolean connectorId = true ->
    JS.ToBoolean idTag = true ->
    handle (PostStart (JS.Obj addr [ ("chargePointId", chargePointId);
                                     ("connectorId", connectorId);
                                     ("idTag", idTag) ]) c) st =
    Outcome (Normal tt) st
      [ complaint;
        Respond 200 [Lit "RemoteStartTransaction sent to charger ";
                     Sub chargePointId] ].
Proof.
  intros Hg Ht complaint. split.
  - apply sendMessageToCharger_not_connected; assumption.
  - intros addr H1 H2 H3. js_run. reflexivity.
Qed.

(** A start command for SN42 before any charger has booted. *)
Lemma C3_not_connected_logged_and_answered_200_witness :
  let complaint :=
    LogError [Lit "Charger with ID "; Sub (JS.Str "SN42");
              Lit " not connected"] in
  sendRemoteStartTransaction (JS.Str "SN42") (JS.Num (JS.lit 1))
    (JS.Str "TAG1") tick start =
    Outcome (Normal tt) start [complaint] /\
  forall addr : nat,
    JS.ToBoolean (JS.Str "SN42") = true ->
    JS.ToBoolean (JS.Num (JS.lit 1)) = true ->
    JS.ToBoolean (JS.Str "TAG1") = true ->
    handle (PostStart (JS.Obj addr [ ("chargePointId", JS.Str "SN42");
                                     ("connectorId", JS.Num (JS.lit 1));
                                     ("idTag", JS.Str "TAG1") ]) tick) start =
    Outcome (Normal tt) start
      [ complaint;
        Respond 200 [Lit "RemoteStartTransaction sent to charger ";
                     Sub (JS.Str "SN42")] ].
Proof.
  apply (C3_not_connected_logged_and_answered_200
           (JS.Str "SN42") (JS.Num (JS.lit 1)) (JS.Str "TAG1") tick start);
    reflexivity.
Defined.

(** C5, the claim as stated fails: sending RemoteStartTransaction to the
    connected SN42 leaves the state of the program exactly as it was, so
    no table computed from that state gains a pending correlation; and
    the charger's CallResult carrying the uniqueId of that send is met
    with 'Unsupported message type or action' and resolves nothing. *)
Lemma C5_send_records_nothing :
  let st := [(JS.Str "SN42", 1)] in
  let o := sendRemoteStartTransaction (JS.Str "SN42") (JS.Num (JS.lit 1))
             (JS.Str "TAG1") tick st in
  uniqueIds (effects o) = [Some (JS.Str "1700000000000")] /\
  store o = st /\
  ~ (exists pending : Map.t -> list JS.value,
       List.length (pending (store o)) = S (List.length (pending st))) /\
  on_message 1 wire_result tick (store o) =
    Outcome (Normal tt) st [received wire_result; unsupported].
Proof.
  cbv zeta. split; [reflexivity|]. split; [reflexivity|]. split.
  - intros [pending H].
    change (store _) with [(JS.Str "SN42", 1)] in H. lia.
  - reflexivity.
Qed.

(** C5, amended: sending RemoteStartTransaction to a connected identity
    (whose conversion to a string does not throw) sends exactly one Call
    [[2, uniqueId, 'RemoteStartTransaction', {connectorId, idTag}]] on the
    registered connection, writes 'Message sent to charger <id>' and
    leaves the state of the program unchanged: no pending correlation is
    created.  A later frame whose [messageTypeId] is 3 and whose action
    converts to a string, whatever its uniqueId, is only logged: the
    listener returns normally, writes 'Received response for: <action>',
    changes no state and sends nothing. *)
Theorem C5_send_is_one_Call_and_results_change_nothing
    (chargePointId connectorId idTag : JS.value) (ws : WebSocket)
    (c : clock) (st : Map.t) :
  Map.get st chargePointId = Some ws ->
  JS.ToString_throws chargePointId = false ->
  (exists uniqueId : string,
     sendRemoteStartTransaction chargePointId connectorId idTag c st =
     Outcome (Normal tt) st
       [ Send ws (RemoteStart uniqueId connectorId idTag);
         Log [Lit "Message sent to charger "; Sub chargePointId] ]) /\
  (forall (ws' : WebSocket) (message : frame) (c' : clock) (m : JS.value),
     json message = Some m ->
     JS.strict_eq (JS.prop m "messageTypeId") CALL_RESULT_MESSAGE = true ->
     JS.ToString_throws (JS.prop m "action") = false ->
     on_message ws' message c' st =
     Outcome (Normal tt) st
       [ received message;
         Log [Lit "Received response for: "; Sub (JS.prop m "action")] ]).
Proof.
  intros Hg Ht. split.
  - exists (JS.decimal (now c)).
    apply sendMessageToCharger_connected; assumption.
  - intros ws' message c' m Hj H3 Ha.
    assert (Hn : JS.nullish m = false).
    { destruct m; try reflexivity; discriminate H3. }
    rewrite (on_message_other ws' message c' st m Hj Hn).
    + rewrite H3, Ha. reflexivity.
    + unfold boot_shape. rewrite (CALL_RESULT_not_CALL _ H3). reflexivity.
Qed.

(** A start command for SN42 once it is registered on connection 1. *)
Lemma C5_send_is_one_Call_and_results_change_nothing_witness :
  let st := [(JS.Str "SN42", 1)] in
  exists uniqueId : string,
    sendRemoteStartTransaction (JS.Str "SN42") (JS.Num (JS.lit 1))
      (JS.Str "TAG1") tick st =
    Outcome (Normal tt) st
      [ Send 1 (RemoteStart uniqueId (JS.Num (JS.lit 1)) (JS.Str "TAG1"));
        Log [Lit "Message sent to charger "; Sub (JS.Str "SN42")] ].
Proof.
  exact (proj1 (C5_send_is_one_Call_and_results_change_nothing
                  (JS.Str "SN42") (JS.Num (JS.lit 1)) (JS.Str "TAG1") 1 tick
                  [(JS.Str "SN42", 1)] eq_refl eq_refl)).
Defined.

(** ** Registration and deregistration *)

Lemma owner_set_fresh (st : Map.t) (I : JS.value) (ws : WebSocket) :
  Map.owner st ws = None ->
  exists k, Map.owner (Map.set st I ws) ws = Some k /\
            JS.sameValueZero k I = true.
Proof.
  induction st as [|[k0 v0] st IH]; simpl.
  - intros _. exists (Map.normalize I). rewrite Nat.eqb_refl.
    rewrite sameValueZero_normalize, sameValueZero_refl. auto.
  - destruct (Nat.eqb v0 ws) eqn:Ev; [discriminate|]. intros Ho.
    destruct (JS.sameValueZero k0 I) eqn:Ek; simpl.
    + rewrite Nat.eqb_refl. exists k0. auto.
    + rewrite Ev. apply IH, Ho.
Qed.

Lemma close_forgets_owner (st : Map.t) (ws : WebSocket) (k I : JS.value) :
  Map.wf st ->
  Map.owner st ws = Some k ->
  JS.sameValueZero k I = true ->
  Map.get (store (on_close ws st)) I = None.
Proof.
  intros Hw Ho Hk. rewrite on_close_store, Ho.
  rewrite <- (get_congr _ k I Hk). apply get_delete_same, Hw.
Qed.

Lemma length_set_present (m : Map.t) (k : JS.value) (v w : WebSocket) :
  Map.get m k = Some w -> List.length (Map.set m k v) = List.length m.
Proof.
  induction m as [|[k0 v0] m IH]; simpl; [discriminate|].
  destruct (JS.sameValueZero k0 k); simpl; [reflexivity|].
  intros H. rewrite IH; auto.
Qed.

Lemma length_delete (m : Map.t) (k : JS.value) :
  List.length m <= S (List.length (Map.delete m k)).
Proof.
  induction m as [|[k0 v0] m IH]; simpl; [lia|].
  destruct (JS.sameValueZero k0 k); simpl; lia.
Qed.

(** C2: the specification has a lookup of I return NotFound once the
    connection that established I has closed, and the source describes the
    close listener as 'Find the charger that disconnected and remove from
    the map'.  The listener deletes the first entry held by the connection
    and breaks.  Connection 1 boots as X1 (no serial number in the
    payload), boots again as SN42, which is a handshake establishing SN42,
    and closes: the entry X1 is removed, a lookup of SN42 still returns
    connection 1, and a start command for SN42 is sent on the closed
    connection. *)
Theorem C2_second_identity_outlives_close :
  let closed :=
    store (run [ Connection 1; Message 1 (model_boot "X1") tick;
                 Message 1 object_boot tick; Close 1 ] start) in
  handshake 1 object_boot tick
    (store (run [Connection 1; Message 1 (model_boot "X1") tick] start))
    (JS.Str "SN42") /\
  Map.get closed (JS.Str "SN42") = Some 1 /\
  sent (effects (handle (PostStart (start_body 1) tick) closed)) =
    [(1, RemoteStart "1700000000000" (JS.Num (JS.lit 1)) (JS.Str "TAG1"))].
Proof.
  cbv zeta. split; [split|split].
  - exists (CallResult (JS.Str "1") tick). vm_compute. auto.
  - eexists. split; reflexivity.
  - reflexivity.
  - reflexivity.
Qed.

(** X19: when a connection completes a BootNotification handshake (a
    frame the listener answers) establishing identity I, a lookup of I
    right after it returns that connection.  If the connection held no
    registry entry before the handshake and closes next, a lookup of I
    then finds nothing; more generally the close removes I whenever I is
    the first entry, in insertion order, that the connection holds. *)
Theorem lookup_after_boot_and_after_close
    (ws : WebSocket) (message : frame) (c : clock) (st : Map.t)
    (I : JS.value) :
  handshake ws message c st I ->
  let st1 := store (on_message ws message c st) in
  Map.get st1 I = Some ws /\
  (Map.wf st -> Map.owner st ws = None ->
   Map.get (store (on_close ws st1)) I = None) /\
  (forall (later : Map.t) (k : JS.value),
     Map.wf later -> Map.owner later ws = Some k ->
     JS.sameValueZero k I = true ->
     Map.get (store (on_close ws later)) I = None).
Proof.
  intros H st1. destruct (handshake_inv _ _ _ _ _ H) as [m [Hj [HI Ho]]].
  subst st1. rewrite Ho. simpl. split; [apply get_set_same|]. split.
  - intros Hw Hn. destruct (owner_set_fresh st I ws Hn) as [k [Hk Hs]].
    apply (close_forgets_owner _ _ k); auto using wf_set.
  - intros later k Hw Hk Hs. apply (close_forgets_owner _ _ k); assumption.
Qed.

(** Connection 1 boots as SN42 and closes. *)
Lemma lookup_after_boot_and_after_close_witness :
  let st1 := store (on_message 1 object_boot tick start) in
  Map.get st1 (JS.Str "SN42") = Some 1 /\
  Map.get (store (on_close 1 st1)) (JS.Str "SN42") = None.
Proof.
  assert (H : handshake 1 object_boot tick start (JS.Str "SN42")).
  { split.
    - exists (CallResult (JS.Str "1") tick). vm_compute. auto.
    - eexists. split; reflexivity. }
  destruct (lookup_after_boot_and_after_close
              1 object_boot tick start (JS.Str "SN42") H) as [H1 [H2 _]].
  split; [exact H1 | apply H2; [exact I | reflexivity]].
Defined.

(** C7: the specification has two BootNotifications with the same
    identity, arriving on two connections, leave exactly one registry
    entry for that identity, the later connection's.  BootNotifications
    arrive as arrays [[2, uniqueId, 'BootNotification', payload]], which
    the listener does not recognise (see C1): after two of them, whatever
    their connections, ids and payloads, the registry is what it was
    before, so from start-up it holds no entry at all, under any
    identity. *)
Theorem C7_wire_boots_register_nothing
    (ws1 ws2 : WebSocket) (text1 text2 : string) (addr1 addr2 : nat)
    (uniqueId1 uniqueId2 payload1 payload2 : JS.value) (c1 c2 : clock)
    (st : Map.t) (I : JS.value) :
  let boot text addr uniqueId payload :=
    Frame text (Some (JS.Arr addr [ CALL_MESSAGE; uniqueId;
                                    JS.Str "BootNotification"; payload ])) in
  let events :=
    [ Message ws1 (boot text1 addr1 uniqueId1 payload1) c1;
      Message ws2 (boot text2 addr2 uniqueId2 payload2) c2 ] in
  result (run events st) = Normal tt /\
  store (run events st) = st /\
  sent (effects (run events st)) = [] /\
  Map.count (store (run events start)) I = 0.
Proof.
  cbv zeta. simpl run. unfold bind.
  erewrite !on_message_array_or_scalar by reflexivity.
  repeat split.
Qed.

(** X20: when two frames that the listener answers as BootNotifications
    derive the same identity on two different connections, one right after
    the other, the registry afterwards has exactly one entry for that
    identity and it is the later connection's.  The evicted connection is
    not torn down: the second handshake only writes to the console and
    answers on the later connection; the entries under every other
    identity, the evicted connection's included, are as before, and the
    registry has as many entries as before. *)
Theorem later_boot_replaces_the_entry
    (ws1 ws2 : WebSocket) (message1 message2 : frame) (c1 c2 : clock)
    (st : Map.t) (I1 I2 : JS.value) :
  Map.wf st ->
  ws1 <> ws2 ->
  handshake ws1 message1 c1 st I1 ->
  let st1 := store (on_message ws1 message1 c1 st) in
  handshake ws2 message2 c2 st1 I2 ->
  JS.sameValueZero I1 I2 = true ->
  let o := on_message ws2 message2 c2 st1 in
  Map.get st1 I1 = Some ws1 /\
  Map.get (store o) I1 = Some ws2 /\
  Map.count (store o) I1 = 1 /\
  (forall k, JS.sameValueZero k I1 = false ->
             Map.get (store o) k = Map.get st1 k) /\
  List.length (store o) = List.length st1 /\
  exists m2,
    json message2 = Some m2 /\
    effects o = [ received message2;
                  connected I2 (JS.prop m2 "payload");
                  Send ws2 (CallResult (JS.prop m2 "uniqueId") c2) ].
Proof.
  intros Hw Hne H1 st1 H2 Hs o.
  destruct (handshake_inv _ _ _ _ _ H1) as [m1 [Hj1 [HI1 Ho1]]].
  destruct (handshake_inv _ _ _ _ _ H2) as [m2 [Hj2 [HI2 Ho2]]].
  assert (Hst1 : st1 = Map.set st I1 ws1) by (subst st1; rewrite Ho1; auto).
  assert (Hg1 : Map.get st1 I1 = Some ws1)
    by (rewrite Hst1; apply get_set_same).
  assert (Hw1 : Map.wf st1) by (rewrite Hst1; apply wf_set, Hw).
  assert (Hg2 : Map.get (Map.set st1 I2 ws2) I1 = Some ws2).
  { rewrite (get_congr _ I1 I2 Hs). apply get_set_same. }
  subst o. rewrite Ho2. simpl. repeat split.
  - exact Hg1.
  - exact Hg2.
  - apply (count_some _ _ ws2); [apply wf_set, Hw1 | exact Hg2].
  - intros k Hk. apply get_set_other.
    rewrite <- (sameValueZero_congr I1 I2 k Hs), sameValueZero_sym. exact Hk.
  - apply (length_set_present _ _ _ ws1).
    rewrite <- (get_congr _ I1 I2 Hs). exact Hg1.
  - exists m2. auto.
Qed.

(** Connections 1 and 2 both boot as SN42. *)
Lemma later_boot_replaces_the_entry_witness :
  let st1 := store (on_message 1 object_boot tick start) in
  let o := on_message 2 object_boot tick st1 in
  Map.get st1 (JS.Str "SN42") = Some 1 /\
  Map.get (store o) (JS.Str "SN42") = Some 2 /\
  Map.count (store o) (JS.Str "SN42") = 1.
Proof.
  assert (H1 : handshake 1 object_boot tick start (JS.Str "SN42")).
  { split.
    - exists (CallResult (JS.Str "1") tick). vm_compute. auto.
    - eexists. split; reflexivity. }
  assert (H2 : handshake 2 object_boot tick
                 (store (on_message 1 object_boot tick start))
                 (JS.Str "SN42")).
  { split.
    - exists (CallResult (JS.Str "1") tick). vm_compute. auto.
    - eexists. split; reflexivity. }
  destruct (later_boot_replaces_the_entry 1 2 object_boot object_boot
              tick tick start (JS.Str "SN42") (JS.Str "SN42")
              I ltac:(discriminate) H1 H2 eq_refl)
    as [G1 [G2 [G3 _]]].
  repeat split; assumption.
Defined.

(** C10: a close event removes at most one registry entry, the first one
    in iteration order whose value is the closing connection; every entry
    before it and after it stays as it was, later entries of the same
    connection included.  A connection that holds no entry changes
    nothing. *)
Theorem C10_close_removes_first_entry_only (ws : WebSocket) (st : Map.t) :
  Map.wf st ->
  (Map.owner st ws = None -> store (on_close ws st) = st) /\
  (forall (pre post : Map.t) (k : JS.value),
     st = pre ++ (k, ws) :: post ->
     (forall e, In e pre -> snd e <> ws) ->
     store (on_close ws st) = pre ++ post) /\
  List.length st <= S (List.length (store (on_close ws st))).
Proof.
  intros Hw. rewrite on_close_store. repeat split.
  - intros Ho. rewrite Ho. reflexivity.
  - intros pre post k -> Hpre. rewrite (owner_split pre post k ws Hpre).
    apply delete_split with (ws := ws). exact Hw.
  - destruct (Map.owner st ws); [apply length_delete | lia].
Qed.

(** Connection 1 holds X1 and SN42 and closes: only X1 goes. *)
Lemma C10_close_removes_first_entry_only_witness :
  store (on_close 1 [(JS.Str "X1", 1); (JS.Str "B", 2); (JS.Str "SN42", 1)])
  = [(JS.Str "B", 2); (JS.Str "SN42", 1)].
Proof.
  destruct (C10_close_removes_first_entry_only 1
              [(JS.Str "X1", 1); (JS.Str "B", 2); (JS.Str "SN42", 1)])
    as [_ [H _]].
  - simpl. repeat split.
  - apply (H [] [(JS.Str "B", 2); (JS.Str "SN42", 1)] (JS.Str "X1") eq_refl).
    intros e [].
Defined.

(** ** Further properties of the gateway *)

(** X1: in every state the process reaches from start-up, whatever the
    events, no two registry entries have the same key. *)
Theorem registry_keys_distinct (events : list event) :
  Map.wf (store (run events start)).
Proof. apply run_wf. exact I. Qed.

(** X2: a frame that parses to an object with [messageTypeId] 2, [action]
    'BootNotification' and a payload whose identity, model and vendor can
    be printed is answered, on the connection it came from and on no
    other, by exactly one frame [[3, uniqueId, {currentTime, interval:
    300, status: 'Accepted'}]] whose uniqueId is the message's own and
    whose currentTime is the clock's ISO reading; the connection is filed
    under the derived identity. *)
Theorem object_BootNotification_answered
    (ws : WebSocket) (message : frame) (c : clock) (st : Map.t)
    (m : JS.value) :
  json message = Some m ->
  JS.nullish m = false ->
  boot_shape m = true ->
  JS.nullish (JS.prop m "payload") = false ->
  unprintable (JS.prop m "payload") = false ->
  let o := on_message ws message c st in
  result o = Normal tt /\
  sent (effects o) =
    [ (ws, array [ CALL_RESULT_MESSAGE;
                   JS.prop m "uniqueId";
                   object [ ("currentTime", JS.Str (iso c));
                            ("interval", JS.Num (JS.lit 300));
                            ("status", JS.Str "Accepted") ] ]) ] /\
  Map.get (store o) (identity (JS.prop m "payload")) = Some ws.
Proof.
  intros Hj Hn Hb Hp Hu o. subst o.
  rewrite (on_message_boot ws message c st m Hj Hn Hb Hp). simpl.
  rewrite Hu. simpl. repeat split. apply get_set_same.
Qed.

(** The scenario's BootNotification, sent as an object. *)
Lemma object_BootNotification_answered_witness :
  let o := on_message 1 object_boot tick start in
  result o = Normal tt /\
  sent (effects o) =
    [ (1, array [ CALL_RESULT_MESSAGE;
                  JS.Str "1";
                  object [ ("currentTime", JS.Str "2023-11-14T22:13:20.000Z");
                           ("interval", JS.Num (JS.lit 300));
                           ("status", JS.Str "Accepted") ] ]) ] /\
  Map.get (store o) (JS.Str "SN42") = Some 1.
Proof.
  apply (object_BootNotification_answered 1 object_boot tick start
           (JS.Obj 1 [ ("messageTypeId", JS.Num (JS.lit 2));
                       ("uniqueId", JS.Str "1");
                       ("action", JS.Str "BootNotification");
                       ("payload", boot_payload) ]));
    reflexivity.
Defined.

(** X3: two commands sent to connected chargers at different readings of
    [Date.now()] carry different uniqueIds. *)
Theorem different_milliseconds_different_uniqueIds
    (id1 connectorId1 idTag1 id2 connectorId2 idTag2 : JS.value)
    (ws1 ws2 : WebSocket) (c1 c2 : clock) (st1 st2 : Map.t) :
  Map.get st1 id1 = Some ws1 ->
  Map.get st2 id2 = Some ws2 ->
  now c1 <> now c2 ->
  exists u1 u2 : string,
    uniqueIds (effects (sendRemoteStartTransaction id1 connectorId1 idTag1
                          c1 st1)) = [Some (JS.Str u1)] /\
    uniqueIds (effects (sendRemoteStartTransaction id2 connectorId2 idTag2
                          c2 st2)) = [Some (JS.Str u2)] /\
    u1 <> u2.
Proof.
  intros H1 H2 Hne.
  exists (JS.decimal (now c1)), (JS.decimal (now c2)).
  unfold uniqueIds, sendRemoteStartTransaction.
  rewrite !sendMessageToCharger_sent, H1, H2. repeat split.
  intros E. apply Hne, decimal_inj, E.
Qed.

(** Two start commands one millisecond apart. *)
Lemma different_milliseconds_different_uniqueIds_witness :
  exists u1 u2 : string,
    uniqueIds (effects (sendRemoteStartTransaction (JS.Str "SN42")
                          (JS.Num (JS.lit 1)) (JS.Str "TAG1") tick
                          [(JS.Str "SN42", 1)])) = [Some (JS.Str u1)] /\
    uniqueIds (effects (sendRemoteStartTransaction (JS.Str "SN42")
                          (JS.Num (JS.lit 2)) (JS.Str "TAG1")
                          (Clock 1700000000001 "2023-11-14T22:13:20.001Z")
                          [(JS.Str "SN42", 1)])) = [Some (JS.Str u2)] /\
    u1 <> u2.
Proof.
  apply (different_milliseconds_different_uniqueIds
           (JS.Str "SN42") (JS.Num (JS.lit 1)) (JS.Str "TAG1")
           (JS.Str "SN42") (JS.Num (JS.lit 2)) (JS.Str "TAG1") 1 1);
    [reflexivity | reflexivity | simpl; lia].
Defined.

(** X4: the two HTTP routes never change the registry, whatever the body
    and whether or not the handler throws. *)
Theorem routes_leave_registry_unchanged
    (body : JS.value) (c : clock) (st : Map.t) :
  store (handle (PostStart body c) st) = st /\
  store (handle (PostStop body c) st) = st.
Proof.
  simpl. rewrite !express_store, post_start_store, post_stop_store.
  split; reflexivity.
Qed.

(** ** The listener as a table *)

(** What the ['message'] listener does, by the shape of the frame. *)
Lemma on_message_table (ws : WebSocket) (message : frame) (c : clock)
    (st : Map.t) :
  on_message ws message c st =
  match json message with
  | None => Outcome (Throw SyntaxError) st [received message]
  | Some m =>
      if JS.nullish m then Outcome (Throw TypeError) st [received message]
      else if boot_shape m then
        let payload := JS.prop m "payload" in
        if JS.nullish payload then
          Outcome (Throw TypeError) st [received message]
        else if unprintable payload then
          Outcome (Throw TypeError) (Map.set st (identity payload) ws)
            [received message]
        else
          Outcome (Normal tt) (Map.set st (identity payload) ws)
            [ received message;
              connected (identity payload) payload;
              Send ws (CallResult (JS.prop m "uniqueId") c) ]
      else if JS.strict_eq (JS.prop m "messageTypeId") CALL_RESULT_MESSAGE
      then
        if JS.ToString_throws (JS.prop m "action") then
          Outcome (Throw TypeError) st [received message]
        else
          Outcome (Normal tt) st
            [ received message;
              Log [Lit "Received response for: ";
                   Sub (JS.prop m "action")] ]
      else Outcome (Normal tt) st [received message; unsupported]
  end.
Proof.
  destruct (json message) as [m|] eqn:Ej;
    [|apply on_message_SyntaxError; assumption].
  destruct (JS.nullish m) eqn:En;
    [apply (on_message_nullish _ _ _ _ m); assumption|].
  destruct (boot_shape m) eqn:Eb.
  - cbv zeta. destruct (JS.nullish (JS.prop m "payload")) eqn:Ep.
    + apply (on_message_boot_no_payload _ _ _ _ m); assumption.
    + apply (on_message_boot _ _ _ _ m); assumption.
  - apply (on_message_other _ _ _ _ m); assumption.
Qed.

Ltac table_cases ws message c st :=
  rewrite ?(on_message_table ws message c st); unfold listener_throws;
  cbv zeta;
  repeat match goal with
         | |- context [json ?f] => destruct (json f)
         | |- context [JS.nullish ?x] => destruct (JS.nullish x)
         | |- context [boot_shape ?x] => destruct (boot_shape x)
         | |- context [unprintable ?x] => destruct (unprintable x)
         | |- context [JS.strict_eq ?x ?y] => destruct (JS.strict_eq x y)
         | |- context [JS.ToString_throws ?x] =>
             destruct (JS.ToString_throws x)
         end;
  simpl.

(** X5: a frame is only ever answered on the connection it came in on,
    and by at most one frame. *)
Theorem listener_answers_only_its_own_connection
    (ws : WebSocket) (message : frame) (c : clock) (st : Map.t) :
  let frames := sent (effects (on_message ws message c st)) in
  Forall (fun p => fst p = ws) frames /\ List.length frames <= 1.
Proof.
  table_cases ws message c st; split; auto; repeat constructor.
Qed.

Lemma get_set_cases (m : Map.t) (k k' : JS.value) (v : WebSocket) :
  Map.get (Map.set m k v) k' = Map.get m k' \/
  Map.get (Map.set m k v) k' = Some v.
Proof.
  destruct (JS.sameValueZero k k') eqn:E.
  - right. rewrite <- (get_congr _ k k' E). apply get_set_same.
  - left. apply get_set_other, E.
Qed.

Lemma length_set (m : Map.t) (k : JS.value) (v : WebSocket) :
  List.length m <= List.length (Map.set m k v) <= S (List.length m).
Proof.
  induction m as [|[k0 v0] m IH]; simpl; [lia|].
  destruct (JS.sameValueZero k0 k); simpl; lia.
Qed.

(** X6: handling a frame never removes a registry entry and never points
    an identity at a connection other than the frame's own: every lookup
    gives what it gave before or the connection of the frame, and the
    registry grows by at most one entry. *)
Theorem listener_only_registers_its_own_connection
    (ws : WebSocket) (message : frame) (c : clock) (st : Map.t)
    (k : JS.value) :
  let st' := store (on_message ws message c st) in
  (Map.get st' k = Map.get st k \/ Map.get st' k = Some ws) /\
  List.length st <= List.length st' <= S (List.length st).
Proof.
  table_cases ws message c st;
    (split; [auto using get_set_cases | auto using length_set; lia]).
Qed.

(** X7: whether handling a frame throws is decided by the frame alone,
    not by the registry, the connection or the clock: it throws for text
    that is not JSON ([SyntaxError]), and with [TypeError] for the value
    [null], for a BootNotification without payload or whose identity,
    model or vendor cannot be printed, and for a result whose action
    cannot be printed.  A frame that throws is never answered, and as no
    one catches the exception the events after it are not handled. *)
Theorem listener_throws_exactly_when
    (ws : WebSocket) (message : frame) (c : clock) (st : Map.t)
    (later : list event) :
  let o := on_message ws message c st in
  match listener_throws message with
  | Some e =>
      result o = Throw e /\ sent (effects o) = [] /\
      run (Message ws message c :: later) st = o
  | None => result o = Normal tt
  end.
Proof.
  cbv zeta. simpl run. unfold bind.
  table_cases ws message c st; auto.
Qed.

(** ** The routes as tables *)

Lemma sendMessageToCharger_table (chargePointId data : JS.value)
    (st : Map.t) :
  sendMessageToCharger chargePointId data st =
  match Map.get st chargePointId with
  | Some ws =>
      if JS.ToString_throws chargePointId then
        Outcome (Throw TypeError) st [Send ws data]
      else
        Outcome (Normal tt) st
          [ Send ws data;
            Log [Lit "Message sent to charger "; Sub chargePointId] ]
  | None =>
      if JS.ToString_throws chargePointId then
        Outcome (Throw TypeError) st []
      else
        Outcome (Normal tt) st
          [ LogError [Lit "Charger with ID "; Sub chargePointId;
                      Lit " not connected"] ]
  end.
Proof.
  destruct (Map.get st chargePointId) eqn:Eg;
    destruct (JS.ToString_throws chargePointId) eqn:Et; js_run; reflexivity.
Qed.

Lemma post_start_table (body : JS.value) (c : clock) (st : Map.t) :
  post_start body c st =
  if JS.nullish body then Outcome (Throw TypeError) st []
  else
    let chargePointId := JS.prop body "chargePointId" in
    let call := RemoteStart (JS.decimal (now c))
                  (JS.prop body "connectorId") (JS.prop body "idTag") in
    let done := Respond 200 [Lit "RemoteStartTransaction sent to charger ";
                             Sub chargePointId] in
    if JS.ToBoolean chargePointId
       && JS.ToBoolean (JS.prop body "connectorId")
       && JS.ToBoolean (JS.prop body "idTag")
    then
      match Map.get st chargePointId with
      | Some ws =>
          if JS.ToString_throws chargePointId then
            Outcome (Throw TypeError) st [Send ws call]
          else
            Outcome (Normal tt) st
              [ Send ws call;
                Log [Lit "Message sent to charger "; Sub chargePointId];
                done ]
      | None =>
          if JS.ToString_throws chargePointId then
            Outcome (Throw TypeError) st []
          else
            Outcome (Normal tt) st
              [ LogError [Lit "Charger with ID "; Sub chargePointId;
                          Lit " not connected"];
                done ]
      end
    else Outcome (Normal tt) st [missing_start].
Proof.
  unfold missing_start, RemoteStart.
  destruct (JS.nullish body) eqn:En; [js_run; reflexivity|]. cbv zeta.
  destruct (JS.ToBoolean (JS.prop body "chargePointId")) eqn:E1;
    destruct (JS.ToBoolean (JS.prop body "connectorId")) eqn:E2;
    destruct (JS.ToBoolean (JS.prop body "idTag")) eqn:E3;
    try (js_run; reflexivity).
  destruct (Map.get st (JS.prop body "chargePointId")) eqn:Eg;
    destruct (JS.ToString_throws (JS.prop body "chargePointId")) eqn:Et;
    js_run; reflexivity.
Qed.

Lemma post_stop_table (body : JS.value) (c : clock) (st : Map.t) :
  post_stop body c st =
  if JS.nullish body then Outcome (Throw TypeError) st []
  else
    let chargePointId := JS.prop body "chargePointId" in
    let call := RemoteStop (JS.decimal (now c))
                  (JS.prop body "transactionId") in
    let done := Respond 200 [Lit "RemoteStopTransaction sent to charger ";
                             Sub chargePointId] in
    if JS.ToBoolean chargePointId
       && JS.ToBoolean (JS.prop body "transactionId")
    then
      match Map.get st chargePointId with
      | Some ws =>
          if JS.ToString_throws chargePointId then
            Outcome (Throw TypeError) st [Send ws call]
          else
            Outcome (Normal tt) st
              [ Send ws call;
                Log [Lit "Message sent to charger "; Sub chargePointId];
                done ]
      | None =>
          if JS.ToString_throws chargePointId then
            Outcome (Throw TypeError) st []
          else
            Outcome (Normal tt) st
              [ LogError [Lit "Charger with ID "; Sub chargePointId;
                          Lit " not connected"];
                done ]
      end
    else Outcome (Normal tt) st [missing_stop].
Proof.
  unfold missing_stop, RemoteStop.
  destruct (JS.nullish body) eqn:En; [js_run; reflexivity|]. cbv zeta.
  destruct (JS.ToBoolean (JS.prop body "chargePointId")) eqn:E1;
    destruct (JS.ToBoolean (JS.prop body "transactionId")) eqn:E2;
    try (js_run; reflexivity).
  destruct (Map.get st (JS.prop body "chargePointId")) eqn:Eg;
    destruct (JS.ToString_throws (JS.prop body "chargePointId")) eqn:Et;
    js_run; reflexivity.
Qed.

Ltac route_cases :=
  simpl handle; unfold express;
  rewrite ?post_start_table, ?post_stop_table; cbv zeta;
  repeat match goal with
         | |- context [JS.nullish ?x] => destruct (JS.nullish x)
         | |- context [JS.ToBoolean ?x] => destruct (JS.ToBoolean x)
         | |- context [Map.get ?m ?x] => destruct (Map.get m x) eqn:?
         | |- context [JS.ToString_throws ?x] =>
             destruct (JS.ToString_throws x)
         end;
  simpl.

(** X8: whatever the body, each route handles a request without ending
    the process and gives it exactly one answer, whose status is 200, 400
    or (when the handler threw) 500. *)
Theorem routes_answer_exactly_once
    (body : JS.value) (c : clock) (st : Map.t) :
  let answered (o : outcome unit) :=
    result o = Normal tt /\
    exists status, statuses (effects o) = [status] /\
                   In status [200%Z; 400%Z; 500%Z] in
  answered (handle (PostStart body c) st) /\
  answered (handle (PostStop body c) st).
Proof.
  cbv zeta. split; route_cases;
    (split; [reflexivity | eexists; split; [reflexivity | simpl; auto]]).
Qed.

(** X9: a route sends at most one frame, and only on the connection that
    is registered under the [chargePointId] of the body: a command never
    reaches another charger. *)
Theorem routes_send_only_to_the_registered_connection
    (body : JS.value) (c : clock) (st : Map.t) :
  let addressed (o : outcome unit) :=
    Forall (fun p => Map.get st (JS.prop body "chargePointId")
                     = Some (fst p)) (sent (effects o)) /\
    List.length (sent (effects o)) <= 1 in
  addressed (handle (PostStart body c) st) /\
  addressed (handle (PostStop body c) st).
Proof.
  cbv zeta. split; route_cases; split; auto; repeat constructor; auto.
Qed.

(** X10: for a body that is not [null], [POST /start] answers 400 exactly
    when one of [chargePointId], [connectorId], [idTag] is falsy (absent,
    [null], [false], 0 or the empty string); it then does nothing else:
    no frame is sent and nothing is written to the console. *)
Theorem start_answers_400_exactly_when_a_field_is_falsy
    (body : JS.value) (c : clock) (st : Map.t) :
  JS.nullish body = false ->
  let fields :=
    JS.ToBoolean (JS.prop body "chargePointId")
    && JS.ToBoolean (JS.prop body "connectorId")
    && JS.ToBoolean (JS.prop body "idTag") in
  let o := handle (PostStart body c) st in
  (statuses (effects o) = [400%Z] <-> fields = false) /\
  (fields = false -> o = Outcome (Normal tt) st [missing_start]).
Proof.
  intros Hn. cbv zeta. simpl handle. unfold express.
  rewrite post_start_table, Hn. cbv zeta.
  destruct (_ && _ && _).
  - split; [|discriminate].
    destruct (Map.get st _); destruct (JS.ToString_throws _); simpl;
      split; discriminate.
  - simpl. split; [split|]; reflexivity.
Qed.

(** An empty body misses all three fields. *)
Lemma start_answers_400_exactly_when_a_field_is_falsy_witness :
  handle (PostStart (JS.Obj 1 []) tick) start =
  Outcome (Normal tt) start [missing_start].
Proof.
  apply (start_answers_400_exactly_when_a_field_is_falsy
           (JS.Obj 1 []) tick start eq_refl).
  reflexivity.
Defined.

(** X11: for a body that is not [null], [POST /stop] answers 400 exactly
    when [chargePointId] or [transactionId] is falsy, transaction 0
    included; it then sends nothing and writes nothing. *)
Theorem stop_answers_400_exactly_when_a_field_is_falsy
    (body : JS.value) (c : clock) (st : Map.t) :
  JS.nullish body = false ->
  let fields :=
    JS.ToBoolean (JS.prop body "chargePointId")
    && JS.ToBoolean (JS.prop body "transactionId") in
  let o := handle (PostStop body c) st in
  (statuses (effects o) = [400%Z] <-> fields = false) /\
  (fields = false -> o = Outcome (Normal tt) st [missing_stop]).
Proof.
  intros Hn. cbv zeta. simpl handle. unfold express.
  rewrite post_stop_table, Hn. cbv zeta.
  destruct (_ && _).
  - split; [|discriminate].
    destruct (Map.get st _); destruct (JS.ToString_throws _); simpl;
      split; discriminate.
  - simpl. split; [split|]; reflexivity.
Qed.

(** A stop command for transaction 0. *)
Lemma stop_answers_400_exactly_when_a_field_is_falsy_witness :
  handle (PostStop (JS.Obj 1 [ ("chargePointId", JS.Str "SN42");
                               ("transactionId", JS.Num (JS.lit 0)) ])
            tick) [(JS.Str "SN42", 1)] =
  Outcome (Normal tt) [(JS.Str "SN42", 1)] [missing_stop].
Proof.
  apply (stop_answers_400_exactly_when_a_field_is_falsy
           (JS.Obj 1 [ ("chargePointId", JS.Str "SN42");
                       ("transactionId", JS.Num (JS.lit 0)) ])
           tick [(JS.Str "SN42", 1)] eq_refl).
  reflexivity.
Defined.

(** X12: [POST /stop] with a truthy, printable [chargePointId] and a
    truthy [transactionId] answers 200 and leaves the registry as it
    was.  When a connection is registered under the id, exactly one Call
    [[2, `${Date.now()}`, 'RemoteStopTransaction', {transactionId}]] goes
    out on it; when none is, nothing is sent and the failure is only
    written to [console.error]. *)
Theorem stop_command_sent_or_logged
    (body : JS.value) (c : clock) (st : Map.t) :
  JS.nullish body = false ->
  let chargePointId := JS.prop body "chargePointId" in
  let transactionId := JS.prop body "transactionId" in
  JS.ToBoolean chargePointId = true ->
  JS.ToBoolean transactionId = true ->
  JS.ToString_throws chargePointId = false ->
  let done := Respond 200 [Lit "RemoteStopTransaction sent to charger ";
                           Sub chargePointId] in
  handle (PostStop body c) st =
  Outcome (Normal tt) st
    match Map.get st chargePointId with
    | Some ws =>
        [ Send ws (RemoteStop (JS.decimal (now c)) transactionId);
          Log [Lit "Message sent to charger "; Sub chargePointId];
          done ]
    | None =>
        [ LogError [Lit "Charger with ID "; Sub chargePointId;
                    Lit " not connected"];
          done ]
    end.
Proof.
  intros Hn id tid H1 H2 Ht. subst id tid. cbv zeta.
  simpl handle. unfold express.
  rewrite post_stop_table, Hn. cbv zeta. rewrite H1, H2, Ht. simpl.
  destruct (Map.get st _); reflexivity.
Qed.

(** A stop command for transaction 7 of the registered SN42. *)
Lemma stop_command_sent_or_logged_witness :
  handle (PostStop (JS.Obj 1 [ ("chargePointId", JS.Str "SN42");
                               ("transactionId", JS.Num (JS.lit 7)) ])
            tick) [(JS.Str "SN42", 1)] =
  Outcome (Normal tt) [(JS.Str "SN42", 1)]
    [ Send 1 (RemoteStop "1700000000000" (JS.Num (JS.lit 7)));
      Log [Lit "Message sent to charger "; Sub (JS.Str "SN42")];
      Respond 200 [Lit "RemoteStopTransaction sent to charger ";
                   Sub (JS.Str "SN42")] ].
Proof.
  apply (stop_command_sent_or_logged
           (JS.Obj 1 [ ("chargePointId", JS.Str "SN42");
                       ("transactionId", JS.Num (JS.lit 7)) ])
           tick [(JS.Str "SN42", 1)]); reflexivity.
Defined.

(** ** Boot, command, close *)

Lemma handshake_printable (ws : WebSocket) (message : frame) (c : clock)
    (st : Map.t) (I : JS.value) :
  handshake ws message c st I -> JS.ToString_throws I = false.
Proof.
  intros [Hr [m' [Hj Hi]]].
  destruct (replied_boot _ _ _ _ Hr) as [m [Ej [En [Eb [Ep Eu]]]]].
  assert (m' = m) by congruence. subst m'.
  rewrite (chargePointId_of_identity m En st Ep) in Hi.
  simpl in Hi. injection Hi as <-.
  unfold unprintable in Eu.
  apply Bool.orb_false_iff in Eu. destruct Eu as [Eu _].
  apply Bool.orb_false_iff in Eu. tauto.
Qed.

(** X13: once a connection has completed a BootNotification handshake
    under a truthy identity, a [POST /start] naming that identity, with
    truthy [connectorId] and [idTag], puts exactly one Call
    [[2, `${Date.now()}`, 'RemoteStartTransaction', {connectorId, idTag}]]
    on that same connection and answers 200. *)
Theorem registered_charger_receives_start
    (ws : WebSocket) (message : frame) (c c' : clock) (st : Map.t)
    (I connectorId idTag : JS.value) (addr : nat) :
  handshake ws message c st I ->
  JS.ToBoolean I = true ->
  JS.ToBoolean connectorId = true ->
  JS.ToBoolean idTag = true ->
  let st1 := store (on_message ws message c st) in
  let body := JS.Obj addr [ ("chargePointId", I);
                            ("connectorId", connectorId);
                            ("idTag", idTag) ] in
  handle (PostStart body c') st1 =
  Outcome (Normal tt) st1
    [ Send ws (RemoteStart (JS.decimal (now c')) connectorId idTag);
      Log [Lit "Message sent to charger "; Sub I];
      Respond 200 [Lit "RemoteStartTransaction sent to charger "; Sub I] ].
Proof.
  intros H H1 H2 H3 st1 body.
  pose proof (handshake_printable _ _ _ _ _ H) as Ht.
  destruct (handshake_inv _ _ _ _ _ H) as [m [Hj [HI Ho]]].
  assert (Hg : Map.get st1 I = Some ws)
    by (subst st1; rewrite Ho; apply get_set_same).
  simpl handle. unfold express. rewrite post_start_table. subst body.
  simpl. rewrite H1, H2, H3, Hg, Ht. reflexivity.
Qed.

(** The scenario: SN42 boots on connection 1, then a start command. *)
Lemma registered_charger_receives_start_witness :
  let st1 := store (on_message 1 object_boot tick start) in
  handle (PostStart (start_body 1) tick) st1 =
  Outcome (Normal tt) st1
    [ Send 1 (RemoteStart "1700000000000" (JS.Num (JS.lit 1))
                (JS.Str "TAG1"));
      Log [Lit "Message sent to charger "; Sub (JS.Str "SN42")];
      Respond 200 [Lit "RemoteStartTransaction sent to charger ";
                   Sub (JS.Str "SN42")] ].
Proof.
  assert (H : handshake 1 object_boot tick start (JS.Str "SN42")).
  { split.
    - exists (CallResult (JS.Str "1") tick). vm_compute. auto.
    - eexists. split; reflexivity. }
  exact (registered_charger_receives_start 1 object_boot tick tick start
           (JS.Str "SN42") (JS.Num (JS.lit 1)) (JS.Str "TAG1") 1
           H eq_refl eq_refl eq_refl).
Defined.

Lemma owner_get (st : Map.t) (ws : WebSocket) (k : JS.value) :
  Map.wf st -> Map.owner st ws = Some k -> Map.get st k = Some ws.
Proof.
  induction st as [|[k0 v0] st IH]; simpl; [discriminate|].
  intros [Hg Hw]. destruct (Nat.eqb_spec v0 ws) as [->|Hne].
  - intros E. injection E as <-. rewrite sameValueZero_refl. reflexivity.
  - intros Ho. specialize (IH Hw Ho).
    destruct (JS.sameValueZero k0 k) eqn:E; [|exact IH].
    rewrite (get_congr st k0 k E) in Hg. congruence.
Qed.

(** X14: the close of one connection never unregisters another: an
    identity that maps to a different connection maps to it afterwards
    too. *)
Theorem close_keeps_other_connections
    (ws ws' : WebSocket) (st : Map.t) (k : JS.value) :
  Map.wf st ->
  Map.get st k = Some ws' ->
  ws' <> ws ->
  Map.get (store (on_close ws st)) k = Some ws'.
Proof.
  intros Hw Hg Hne. rewrite on_close_store.
  destruct (Map.owner st ws) as [k0|] eqn:Eo; [|exact Hg].
  rewrite get_delete_other; [exact Hg|].
  destruct (JS.sameValueZero k0 k) eqn:E; [|reflexivity].
  pose proof (owner_get st ws k0 Hw Eo) as H0.
  rewrite (get_congr st k0 k E) in H0. congruence.
Qed.

(** Connection 1 closes; SN77 on connection 2 stays registered. *)
Lemma close_keeps_other_connections_witness :
  Map.get (store (on_close 1 [(JS.Str "SN42", 1); (JS.Str "SN77", 2)]))
    (JS.Str "SN77") = Some 2.
Proof.
  apply (close_keeps_other_connections 1 2
           [(JS.Str "SN42", 1); (JS.Str "SN77", 2)] (JS.Str "SN77")).
  - simpl. repeat split.
  - reflexivity.
  - discriminate.
Defined.

(** X15: after a connection closes, a start command for the identity that
    was its first registry entry is sent to no one. *)
Theorem closed_charger_receives_nothing
    (ws : WebSocket) (st : Map.t) (k I : JS.value) (body : JS.value)
    (c : clock) :
  Map.wf st ->
  Map.owner st ws = Some k ->
  JS.sameValueZero k I = true ->
  JS.prop body "chargePointId" = I ->
  sent (effects (handle (PostStart body c) (store (on_close ws st)))) = [].
Proof.
  intros Hw Ho Hk Hb.
  pose proof (close_forgets_owner st ws k I Hw Ho Hk) as Hg.
  simpl handle. unfold express. rewrite post_start_table. cbv zeta.
  rewrite Hb, Hg.
  destruct (JS.nullish body); [reflexivity|].
  destruct (_ && _ && _); [|reflexivity].
  destruct (JS.ToString_throws I); reflexivity.
Qed.

(** SN42 on connection 1: after the close the command goes nowhere. *)
Lemma closed_charger_receives_nothing_witness :
  sent (effects (handle (PostStart (start_body 1) tick)
                   (store (on_close 1 [(JS.Str "SN42", 1)])))) = [].
Proof.
  apply (closed_charger_receives_nothing 1 [(JS.Str "SN42", 1)]
           (JS.Str "SN42") (JS.Str "SN42") (start_body 1) tick).
  - simpl. repeat split.
  - reflexivity.
  - reflexivity.
  - reflexivity.
Defined.

(** ** Keys that can be printed *)

Lemma normalize_printable (k : JS.value) :
  JS.ToString_throws (Map.normalize k) = JS.ToString_throws k.
Proof.
  destruct k as [| |b|n|s|a l|a l]; try reflexivity.
  destruct n as [[|]|[|]| |s m e]; reflexivity.
Qed.

Lemma printable_set (st : Map.t) (k : JS.value) (ws : WebSocket) :
  printable_keys st -> JS.ToString_throws k = false ->
  printable_keys (Map.set st k ws).
Proof.
  unfold printable_keys. intros Hp Hk.
  induction st as [|[k0 v0] st IH]; simpl.
  - constructor; [simpl; rewrite normalize_printable; exact Hk | constructor].
  - inversion Hp as [|e l He Hl]; subst.
    destruct (JS.sameValueZero k0 k); constructor; auto.
Qed.

Lemma printable_delete (st : Map.t) (k : JS.value) :
  printable_keys st -> printable_keys (Map.delete st k).
Proof.
  unfold printable_keys. intros Hp.
  induction st as [|[k0 v0] st IH]; simpl; [constructor|].
  inversion Hp as [|e l He Hl]; subst.
  destruct (JS.sameValueZero k0 k); [exact Hl | constructor; auto].
Qed.

Lemma on_message_printable (ws : WebSocket) (message : frame) (c : clock)
    (st : Map.t) :
  printable_keys st ->
  result (on_message ws message c st) = Normal tt ->
  printable_keys (store (on_message ws message c st)).
Proof.
  intros Hp. rewrite on_message_table.
  destruct (json message) as [m|]; [|discriminate].
  destruct (JS.nullish m); [discriminate|].
  destruct (boot_shape m).
  - cbv zeta. destruct (JS.nullish (JS.prop m "payload")); [discriminate|].
    destruct (unprintable (JS.prop m "payload")) eqn:Eu; [discriminate|].
    intros _. simpl. apply printable_set; [exact Hp|].
    unfold unprintable in Eu.
    apply Bool.orb_false_iff in Eu. destruct Eu as [Eu _].
    apply Bool.orb_false_iff in Eu. tauto.
  - destruct (JS.strict_eq _ CALL_RESULT_MESSAGE);
      [destruct (JS.ToString_throws (JS.prop m "action"))|];
      intros _; exact Hp.
Qed.

Lemma handle_printable (e : event) (st : Map.t) :
  printable_keys st ->
  result (handle e st) = Normal tt ->
  printable_keys (store (handle e st)).
Proof.
  intros Hp. destruct e as [ws|ws message c|ws|body c|body c|ws]; simpl.
  - intros _. exact Hp.
  - apply on_message_printable, Hp.
  - intros _. rewrite on_close_store.
    destruct (Map.owner st ws); [apply printable_delete|]; exact Hp.
  - intros _. rewrite express_store, post_start_store. exact Hp.
  - intros _. rewrite express_store, post_stop_store. exact Hp.
  - intros _. exact Hp.
Qed.

Lemma run_printable (events : list event) (st : Map.t) :
  printable_keys st ->
  result (run events st) = Normal tt ->
  printable_keys (store (run events st)).
Proof.
  revert st. induction events as [|e events IH]; intros st Hp; simpl.
  - intros _. exact Hp.
  - unfold bind. pose proof (handle_printable e st Hp) as He.
    destruct (handle e st) as [[[]|x] st1 effs1]; simpl in *;
      [|discriminate].
    specialize (IH st1 (He eq_refl)).
    destruct (run events st1) as [r st2 effs2]. simpl in *. exact IH.
Qed.

Lemma close_loop_quiet (ws : WebSocket)
    (entries : list (JS.value * WebSocket)) (st : Map.t) :
  printable_keys entries ->
  let o := close_loop ws entries st in
  result o = Normal tt /\ sent (effects o) = [] /\
  statuses (effects o) = [] /\ List.length (effects o) <= 1.
Proof.
  unfold printable_keys. intros Hp.
  induction entries as [|[k v] entries IH]; simpl.
  - repeat split. lia.
  - inversion Hp as [|e l He Hl]; subst. simpl in He.
    destruct (Nat.eqb v ws); [|apply IH, Hl].
    js_run. repeat split. lia.
Qed.

(** X16: while the process runs, every key of the registry can be
    converted to a string, so the ['close'] listener never throws: for any
    connection it returns normally, sends no frame, answers no request and
    writes at most one line to the console. *)
Theorem close_never_ends_a_running_process
    (events : list event) (ws : WebSocket) :
  result (run events start) = Normal tt ->
  let o := on_close ws (store (run events start)) in
  result o = Normal tt /\ sent (effects o) = [] /\
  statuses (effects o) = [] /\ List.length (effects o) <= 1.
Proof.
  intros Hr.
  assert (Hp : printable_keys (store (run events start)))
    by (apply run_printable; [constructor | exact Hr]).
  cbv zeta. unfold on_close, bind, chargerConnections_entries. simpl.
  pose proof (close_loop_quiet ws (store (run events start))
                (store (run events start)) Hp) as H.
  cbv zeta in H. unfold Map.entries.
  destruct (close_loop ws _ _) as [[[]|x] st' effs]; simpl in *; exact H.
Qed.

(** SN42 boots on connection 1, which then closes. *)
Lemma close_never_ends_a_running_process_witness :
  let o := on_close 1 (store (run [Message 1 object_boot tick] start)) in
  result o = Normal tt /\ sent (effects o) = [] /\
  statuses (effects o) = [] /\ List.length (effects o) <= 1.
Proof.
  apply (close_never_ends_a_running_process [Message 1 object_boot tick] 1).
  reflexivity.
Defined.

(** ** Whole runs *)

Lemma on_message_result (ws : WebSocket) (message : frame) (c : clock)
    (st : Map.t) :
  result (on_message ws message c st) =
  match listener_throws message with
  | Some e => Throw e
  | None => Normal tt
  end.
Proof. table_cases ws message c st; reflexivity. Qed.

Lemma on_message_no_status (ws : WebSocket) (message : frame) (c : clock)
    (st : Map.t) :
  statuses (effects (on_message ws message c st)) = [].
Proof. table_cases ws message c st; reflexivity. Qed.

Lemma close_loop_no_status (ws : WebSocket)
    (entries : list (JS.value * WebSocket)) (st : Map.t) :
  statuses (effects (close_loop ws entries st)) = [].
Proof.
  induction entries as [|[k v] entries IH]; simpl; [reflexivity|].
  destruct (Nat.eqb v ws); [|exact IH].
  destruct (JS.ToString_throws k) eqn:E; js_run; reflexivity.
Qed.

Lemma on_close_no_status (ws : WebSocket) (st : Map.t) :
  statuses (effects (on_close ws st)) = [].
Proof.
  unfold on_close, bind, chargerConnections_entries. simpl.
  pose proof (close_loop_no_status ws (Map.entries st) st) as H.
  destruct (close_loop ws _ _) as [[[]|x] st' effs]; exact H.
Qed.

Lemma route_one_status (e : event) (st : Map.t) :
  is_request e = true ->
  result (handle e st) = Normal tt /\
  List.length (statuses (effects (handle e st))) = 1.
Proof.
  destruct e as [ws|ws message c|ws|body c|body c|ws]; try discriminate;
    intros _; route_cases; split; reflexivity.
Qed.

Lemma statuses_app (a b : list effect) :
  statuses (a ++ b) = statuses a ++ statuses b.
Proof.
  induction a as [|e a IH]; simpl; [reflexivity|].
  destruct e; simpl; rewrite IH; reflexivity.
Qed.

Lemma handle_statuses (e : event) (st : Map.t) :
  List.length (statuses (effects (handle e st))) =
  if is_request e then 1 else 0.
Proof.
  destruct (is_request e) eqn:Er; [apply route_one_status, Er|].
  destruct e as [ws|ws message c|ws|body c|body c|ws]; try discriminate; simpl.
  - reflexivity.
  - rewrite on_message_no_status. reflexivity.
  - rewrite on_close_no_status. reflexivity.
  - reflexivity.
Qed.

Lemma handle_harmless (e : event) (st : Map.t) :
  printable_keys st -> harmless e -> result (handle e st) = Normal tt.
Proof.
  intros Hp Hh. destruct e as [ws|ws message c|ws|body c|body c|ws].
  - reflexivity.
  - simpl in *. rewrite on_message_result, Hh. reflexivity.
  - simpl. unfold on_close, bind, chargerConnections_entries. simpl.
    pose proof (close_loop_quiet ws st st Hp) as H. cbv zeta in H.
    unfold Map.entries.
    destruct (close_loop ws st st) as [[[]|x] st' effs]; simpl in *; tauto.
  - apply route_one_status. reflexivity.
  - apply route_one_status. reflexivity.
  - contradiction.
Qed.

Lemma run_harmless (events : list event) (st : Map.t) :
  printable_keys st -> Forall harmless events ->
  result (run events st) = Normal tt.
Proof.
  revert st. induction events as [|e events IH]; intros st Hp Hh; simpl.
  - reflexivity.
  - inversion Hh as [|x l He Hl]; subst. unfold bind.
    pose proof (handle_harmless e st Hp He) as Hr.
    pose proof (handle_printable e st Hp Hr) as Hp'.
    destruct (handle e st) as [[[]|x] st1 effs1]; simpl in *;
      [|discriminate].
    specialize (IH st1 Hp' Hl).
    destruct (run events st1) as [r st2 effs2]. simpl in *. exact IH.
Qed.

(** X17: a sequence of connection, message, close and HTTP events in
    which no socket emits ['error'] and no frame is one whose handling
    throws is handled to its end: closes and requests never end the
    process. *)
Theorem harmless_events_are_handled_to_the_end (events : list event) :
  Forall harmless events -> result (run events start) = Normal tt.
Proof. apply run_harmless. constructor. Qed.

(** The scenario, from connection to close. *)
Lemma harmless_events_are_handled_to_the_end_witness :
  result (run [ Connection 1; Message 1 wire_boot tick;
                Message 1 object_boot tick; PostStart (start_body 1) tick;
                Message 1 wire_result tick; Close 1 ] start) = Normal tt.
Proof.
  apply (harmless_events_are_handled_to_the_end
           [ Connection 1; Message 1 wire_boot tick;
             Message 1 object_boot tick; PostStart (start_body 1) tick;
             Message 1 wire_result tick; Close 1 ]).
  repeat constructor.
Defined.

Lemma run_statuses (events : list event) (st : Map.t) :
  result (run events st) = Normal tt ->
  List.length (statuses (effects (run events st))) =
  List.length (List.filter is_request events).
Proof.
  revert st. induction events as [|e events IH]; intros st; simpl.
  - reflexivity.
  - unfold bind. pose proof (handle_statuses e st) as Hs.
    destruct (handle e st) as [[[]|x] st1 effs1]; simpl in *;
      [|discriminate].
    specialize (IH st1).
    destruct (run events st1) as [r st2 effs2]. simpl in *.
    intros Hr. rewrite statuses_app, length_app, Hs, (IH Hr).
    destruct (is_request e); reflexivity.
Qed.

(** X18: in a run that is handled to its end, the HTTP answers given are
    as many as the requests received: every request is answered once, and
    nothing else (no frame, no close) produces an answer. *)
Theorem every_request_is_answered_once (events : list event) :
  result (run events start) = Normal tt ->
  List.length (statuses (effects (run events start))) =
  List.length (List.filter is_request events).
Proof. apply run_statuses. Qed.

(** Two requests around a boot. *)
Lemma every_request_is_answered_once_witness :
  List.length
    (statuses (effects (run [ PostStart (start_body 1) tick;
                              Message 1 object_boot tick;
                              PostStop (start_body 0) tick ] start))) = 2.
Proof.
  apply (every_request_is_answered_once
           [ PostStart (start_body 1) tick; Message 1 object_boot tick;
             PostStop (start_body 0) tick ]).
  reflexivity.
Defined.
